(** * Campus administration agent

    A shallow embedding of the backend of the campus-administration chat
    agent: [backend/tools.py] (the student roster tools over a document
    collection), [backend/agent.py] (the model/tool graph) and
    [backend/main.py] (the HTTP endpoints and the streaming gateway),
    followed by the properties of the written specification, each settled
    against the embedding.

    Conventions.  A Python [str] is a [string] whose characters are read as
    code points below 256.  A Python exception is a value of [Exn]; a call
    that may raise returns a [Result].  Mutable collaborators (the document
    collection, the log of remote calls) are threaded explicitly. *)

From Stdlib Require Import String Ascii List ZArith DecimalString Bool Arith Lia.
From Stdlib Require Import DecimalPos DecimalZ.
From Stdlib Require Import Permutation.
Import ListNotations.
Open Scope string_scope.

(* ================================================================== *)
(** ** Python values, exceptions and dictionaries *)
(* ================================================================== *)

Module Py.

(** An exception: its class name and [str(e)]. *)
Record Exn := mkExn { exn_class : string; exn_msg : string }.

Inductive Result (A : Type) : Type :=
| Ok (a : A)
| Raise (e : Exn).
Arguments Ok {A} a.
Arguments Raise {A} e.

(** The scalar values that reach the tools: [None], a [str], an [int] or
    a [bool].  A request body can also carry floats, arrays and objects;
    these are not modelled. *)
Inductive Value : Type :=
| VNone
| VStr (s : string)
| VInt (z : Z)
| VBool (b : bool).

(** Equality as the store sees it, in a filter and in a [$group] key: a
    boolean and a number are never equal there. *)
Definition Value_eqb (a b : Value) : bool :=
  match a, b with
  | VNone, VNone => true
  | VStr s, VStr t => String.eqb s t
  | VInt x, VInt y => Z.eqb x y
  | VBool x, VBool y => Bool.eqb x y
  | _, _ => false
  end.

(** Equality of dict keys in Python: [True == 1] and [False == 0], with
    equal hashes. *)
Definition py_eqb (a b : Value) : bool :=
  match a, b with
  | VBool x, VInt y => Z.eqb (if x then 1 else 0) y
  | VInt x, VBool y => Z.eqb x (if y then 1 else 0)
  | _, _ => Value_eqb a b
  end.

Definition str_int (z : Z) : string := NilZero.string_of_int (Z.to_int z).

(** [str(v)], which is also what an f-string placeholder [{v}] prints. *)
Definition str (v : Value) : string :=
  match v with
  | VNone => "None"
  | VStr s => s
  | VInt z => str_int z
  | VBool true => "True"
  | VBool false => "False"
  end.

Definition startswith (s p : string) : bool := String.prefix p s.

(** A [dict] with [str] keys, in insertion order. *)
Definition dict_get {V : Type} (k : string) (d : list (string * V)) : option V :=
  match find (fun kv => String.eqb (fst kv) k) d with
  | Some kv => Some (snd kv)
  | None => None
  end.

(** [d[k] = v]: an existing key keeps its position, a new key goes last. *)
Fixpoint dict_set {V : Type} (k : string) (v : V) (d : list (string * V))
  : list (string * V) :=
  match d with
  | [] => [(k, v)]
  | (k', v') :: d' =>
      if String.eqb k' k then (k', v) :: d' else (k', v') :: dict_set k v d'
  end.

(** [data.get(k)] on a request body: [None] when the key is absent. *)
Definition get (k : string) (data : list (string * Value)) : Value :=
  match dict_get k data with
  | Some v => v
  | None => VNone
  end.

(** A dict keyed by values, as built by a comprehension [{k: v for ...}]:
    a key equal to one already there keeps the old key and takes the new
    value. *)
Fixpoint vdict_set {V : Type} (k : Value) (v : V) (d : list (Value * V))
  : list (Value * V) :=
  match d with
  | [] => [(k, v)]
  | (k', v') :: d' =>
      if py_eqb k' k then (k', v) :: d' else (k', v') :: vdict_set k v d'
  end.

Definition vdict_of_items {V : Type} (items : list (Value * V))
  : list (Value * V) :=
  fold_left (fun d kv => vdict_set (fst kv) (snd kv) d) items [].

End Py.
Import Py.

(* ================================================================== *)
(** ** The [json] module *)
(* ================================================================== *)

Module Json.

#[local] Set Warnings "-register-all".

Inductive json : Type :=
| JNull
| JBool (b : bool)
| JInt (z : Z)
| JStr (s : string)
| JArr (items : list json)
| JObj (members : list (string * json)).

Definition dquote : ascii := ascii_of_nat 34.
Definition backslash : ascii := ascii_of_nat 92.
Definition newline : string := String (ascii_of_nat 10) EmptyString.

Definition hex_digit (n : nat) : ascii :=
  if (n <? 10)%nat then ascii_of_nat (48 + n) else ascii_of_nat (87 + n).

(** [ESCAPE_ASCII]: every character outside [' '..'~'], the quote and the
    backslash are escaped. *)
Definition escape_char (c : ascii) : string :=
  let n := nat_of_ascii c in
  let esc (x : string) := String backslash x in
  if (n =? 34)%nat then esc (String dquote EmptyString)
  else if (n =? 92)%nat then esc (String backslash EmptyString)
  else if (n =? 10)%nat then esc "n"
  else if (n =? 13)%nat then esc "r"
  else if (n =? 9)%nat then esc "t"
  else if (n =? 8)%nat then esc "b"
  else if (n =? 12)%nat then esc "f"
  else if ((32 <=? n) && (n <=? 126))%nat then String c EmptyString
  else esc ("u00" ++ String (hex_digit (n / 16))
                       (String (hex_digit (n mod 16)) EmptyString)).

Fixpoint escape (s : string) : string :=
  match s with
  | EmptyString => EmptyString
  | String c s' => escape_char c ++ escape s'
  end.

Definition encode_basestring_ascii (s : string) : string :=
  String dquote (escape s ++ String dquote EmptyString).

Fixpoint spaces (n : nat) : string :=
  match n with
  | O => EmptyString
  | S n' => String " " (spaces n')
  end.

(** [json.dumps(obj, indent=indent)] with the default separators: [", "]
    between items when [indent] is [None], [","] followed by a line break
    and the indentation otherwise; [": "] after a key in both cases. *)
Fixpoint iterencode (indent : option nat) (level : nat) (j : json) : string :=
  let opening :=
    match indent with
    | Some n => newline ++ spaces (n * S level)
    | None => EmptyString
    end in
  let item_separator :=
    match indent with
    | Some n => "," ++ newline ++ spaces (n * S level)
    | None => ", "
    end in
  let closing :=
    match indent with
    | Some n => newline ++ spaces (n * level)
    | None => EmptyString
    end in
  match j with
  | JNull => "null"
  | JBool true => "true"
  | JBool false => "false"
  | JInt z => str_int z
  | JStr s => encode_basestring_ascii s
  | JArr [] => "[]"
  | JArr items =>
      "[" ++ opening
          ++ String.concat item_separator
               (map (iterencode indent (S level)) items)
          ++ closing ++ "]"
  | JObj [] => "{}"
  | JObj members =>
      "{" ++ opening
          ++ String.concat item_separator
               (map (fun kv => encode_basestring_ascii (fst kv) ++ ": "
                               ++ iterencode indent (S level) (snd kv))
                    members)
          ++ closing ++ "}"
  end.

Definition dumps (obj : json) (indent : option nat) : string :=
  iterencode indent 0 obj.

Definition of_value (v : Value) : json :=
  match v with
  | VNone => JNull
  | VStr s => JStr s
  | VInt z => JInt z
  | VBool b => JBool b
  end.

(** A dict key is written as a string: [None] gives [null], an int its
    decimal form, a bool [true] or [false]. *)
Definition key_of_value (v : Value) : string :=
  match v with
  | VNone => "null"
  | VStr s => s
  | VInt z => str_int z
  | VBool true => "true"
  | VBool false => "false"
  end.

Definition of_dict (d : list (string * Value)) : json :=
  JObj (map (fun kv => (fst kv, of_value (snd kv))) d).

Definition of_counts (d : list (Value * nat)) : json :=
  JObj (map (fun kv => (key_of_value (fst kv), JInt (Z.of_nat (snd kv)))) d).

Definition is_whitespace (c : ascii) : bool :=
  let n := nat_of_ascii c in
  ((n =? 32) || (n =? 9) || (n =? 10) || (n =? 13))%nat.

(** The characters at which the scanner finds the start of a value: a
    string, an object, an array, [null], [true], [false], [NaN],
    [Infinity], a sign or a digit. *)
Definition value_start (c : ascii) : bool :=
  let n := nat_of_ascii c in
  ((n =? 34) || (n =? 123) || (n =? 91) || (n =? 110) || (n =? 116)
   || (n =? 102) || (n =? 78) || (n =? 73) || (n =? 45)
   || ((48 <=? n) && (n <=? 57)))%nat.

Definition JSONDecodeError : Exn :=
  mkExn "JSONDecodeError" "Expecting value: line 1 column 1 (char 0)".

(** The decoder proper, for a text whose first character is white space or
    can start a value.  It belongs to the standard library and is left
    open. *)
Class Decoder := decode : string -> Result json.

(** [json.loads(s)]: a text that is empty, or whose first character is
    neither white space nor the start of a value, is refused at position
    0; any other text is handed to the decoder. *)
Definition loads `{Decoder} (s : string) : Result json :=
  match s with
  | EmptyString => Raise JSONDecodeError
  | String c _ =>
      if is_whitespace c || value_start c then decode s
      else Raise JSONDecodeError
  end.

(** *** What a JSON text says

    The reading of a JSON text that is one object with scalar members, as
    the grammar of JSON has it and independently of [dumps]: white space
    is skipped between the tokens, a string is read up to its closing
    quote with its escapes undone, a number is an optional sign and
    digits, and the members come back in the order they are written.  A
    text of any other shape has no reading. *)

Fixpoint skip_whitespace (s : string) : string :=
  match s with
  | String c s' => if is_whitespace c then skip_whitespace s' else s
  | EmptyString => s
  end.

(** [strip_prefix p s] is what follows [p] in [s]. *)
Fixpoint strip_prefix (p s : string) : option string :=
  match p with
  | EmptyString => Some s
  | String a p' =>
      match s with
      | String b s' => if Ascii.eqb a b then strip_prefix p' s' else None
      | EmptyString => None
      end
  end.

Definition hex_value (c : ascii) : option nat :=
  let n := nat_of_ascii c in
  if ((48 <=? n) && (n <=? 57))%nat then Some (n - 48)
  else if ((97 <=? n) && (n <=? 102))%nat then Some (n - 87)
  else if ((65 <=? n) && (n <=? 70))%nat then Some (n - 55)
  else None.

(** The character a two-character escape stands for. *)
Definition simple_escape (c : ascii) : option ascii :=
  let n := nat_of_ascii c in
  if (n =? 34)%nat then Some dquote
  else if (n =? 92)%nat then Some backslash
  else if (n =? 47)%nat then Some c
  else if (n =? 110)%nat then Some (ascii_of_nat 10)
  else if (n =? 114)%nat then Some (ascii_of_nat 13)
  else if (n =? 116)%nat then Some (ascii_of_nat 9)
  else if (n =? 98)%nat then Some (ascii_of_nat 8)
  else if (n =? 102)%nat then Some (ascii_of_nat 12)
  else None.

Definition push (c : ascii) (r : option (string * string))
  : option (string * string) :=
  match r with
  | Some (text, rest) => Some (String c text, rest)
  | None => None
  end.

(** The string literal whose opening quote has been read: its text and
    what follows the closing quote.  A control character may not stand
    unescaped, and an escape [\uXXXX] is read when it names a code point
    below 256. *)
Fixpoint scanstring (s : string) : option (string * string) :=
  match s with
  | EmptyString => None
  | String c s' =>
      if Ascii.eqb c dquote then Some (EmptyString, s')
      else if Ascii.eqb c backslash then
        match s' with
        | EmptyString => None
        | String e s'' =>
            match simple_escape e with
            | Some c' => push c' (scanstring s'')
            | None =>
                if (nat_of_ascii e =? 117)%nat then
                  match s'' with
                  | String h1 (String h2 (String h3 (String h4 s3))) =>
                      match hex_value h1, hex_value h2,
                            hex_value h3, hex_value h4 with
                      | Some 0, Some 0, Some a, Some b =>
                          push (ascii_of_nat (16 * a + b)) (scanstring s3)
                      | _, _, _, _ => None
                      end
                  | _ => None
                  end
                else None
            end
        end
      else if (nat_of_ascii c <? 32)%nat then None
      else push c (scanstring s')
  end.

Definition number_char (c : ascii) : bool :=
  let n := nat_of_ascii c in
  ((n =? 45) || ((48 <=? n) && (n <=? 57)))%nat.

(** The longest run of sign and digit characters at the start of a text,
    and what follows it. *)
Fixpoint span_number (s : string) : string * string :=
  match s with
  | String c s' =>
      if number_char c
      then let (token, rest) := span_number s' in (String c token, rest)
      else (EmptyString, s)
  | EmptyString => (EmptyString, EmptyString)
  end.

(** [int(s)] for a text of an optional minus sign and digits. *)
Definition int_of_text (s : string) : option Z :=
  option_map Z.of_int (NilZero.int_of_string s).

(** An integer; a fraction or an exponent after the digits makes the
    number a float, which is not read. *)
Definition scan_int (s : string) : option (Z * string) :=
  let (token, rest) := span_number s in
  match int_of_text token, rest with
  | None, _ => None
  | Some z, String c _ =>
      let n := nat_of_ascii c in
      if ((n =? 46) || (n =? 101) || (n =? 69))%nat then None
      else Some (z, rest)
  | Some z, EmptyString => Some (z, rest)
  end.

Definition scan_literal (s : string) : option (Value * string) :=
  match strip_prefix "null" s, strip_prefix "true" s, strip_prefix "false" s with
  | Some rest, _, _ => Some (VNone, rest)
  | _, Some rest, _ => Some (VBool true, rest)
  | _, _, Some rest => Some (VBool false, rest)
  | None, None, None => None
  end.

Definition scan_scalar (s : string) : option (Value * string) :=
  match s with
  | EmptyString => None
  | String c s' =>
      if Ascii.eqb c dquote then
        match scanstring s' with
        | Some (text, rest) => Some (VStr text, rest)
        | None => None
        end
      else if number_char c then
        match scan_int s with
        | Some (z, rest) => Some (VInt z, rest)
        | None => None
        end
      else scan_literal s
  end.

(** The members of an object from the first key on, up to the closing
    brace, after which only white space may follow. *)
Fixpoint scan_members (fuel : nat) (s : string)
  : option (list (string * Value)) :=
  match fuel with
  | O => None
  | S fuel' =>
      match strip_prefix (String dquote EmptyString) (skip_whitespace s) with
      | None => None
      | Some s1 =>
          match scanstring s1 with
          | None => None
          | Some (key, s2) =>
              match strip_prefix ":" (skip_whitespace s2) with
              | None => None
              | Some s3 =>
                  match scan_scalar (skip_whitespace s3) with
                  | None => None
                  | Some (v, s4) =>
                      match skip_whitespace s4 with
                      | EmptyString => None
                      | String c s5 =>
                          if (nat_of_ascii c =? 44)%nat then
                            option_map (cons (key, v)) (scan_members fuel' s5)
                          else if (nat_of_ascii c =? 125)%nat then
                            match skip_whitespace s5 with
                            | EmptyString => Some [(key, v)]
                            | String _ _ => None
                            end
                          else None
                      end
                  end
              end
          end
      end
  end.

(** The members of the object a text consists of; every member takes at
    least one character, so the length of the text is fuel enough. *)
Definition read_object (s : string) : option (list (string * Value)) :=
  match strip_prefix "{" (skip_whitespace s) with
  | None => None
  | Some s1 =>
      match skip_whitespace s1 with
      | EmptyString => None
      | String c s2 =>
          if (nat_of_ascii c =? 125)%nat then
            match skip_whitespace s2 with
            | EmptyString => Some []
            | String _ _ => None
            end
          else scan_members (String.length s) s1
      end
  end.

(** The integer members of an object, when all its members are
    integers. *)
Fixpoint integer_members (members : list (string * Value))
  : option (list (string * Z)) :=
  match members with
  | [] => Some []
  | (k, VInt z) :: members' =>
      option_map (cons (k, z)) (integer_members members')
  | _ :: _ => None
  end.

Definition sum_Z (l : list Z) : Z := fold_right Z.add 0%Z l.

End Json.
Import Json.

(* ================================================================== *)
(** ** The document collection (the operations of the store that
       [tools.py] calls) *)
(* ================================================================== *)

Module Db.

(** A stored document: the [_id] the driver assigns on insertion (an
    ObjectId, which no argument of a tool can equal) and the other members,
    in order. *)
Definition ObjectId := nat.

Record Document := { _id : ObjectId; fields : list (string * Value) }.

(** The collection in natural (insertion) order; nothing makes the [id]
    member unique, so duplicates can be present. *)
Definition Collection := list Document.

(** A filter [{k: q}] compares the member [k] with [q]; a document without
    the member reads as [None] there. *)
Definition field_value (k : string) (d : Document) : Value := get k (fields d).

Definition matches (k : string) (q : Value) (d : Document) : bool :=
  Value_eqb (field_value k d) q.

Definition find_one (k : string) (q : Value) (c : Collection)
  : option Document :=
  find (matches k q) c.

Definition count_documents (c : Collection) : nat := length c.

Definition fresh_oid (c : Collection) : ObjectId := S (list_max (map _id c)).

Definition insert_one (doc : list (string * Value)) (c : Collection)
  : Collection :=
  (c ++ [{| _id := fresh_oid c; fields := doc |}])%list.

Definition insert_many (docs : list (list (string * Value))) (c : Collection)
  : Collection :=
  fold_left (fun acc doc => insert_one doc acc) docs c.

Definition delete_many (c : Collection) : Collection := [].

(** [delete_one({k: q})]: the first matching document goes; the result is
    [deleted_count] and the collection left. *)
Fixpoint delete_one (k : string) (q : Value) (c : Collection)
  : nat * Collection :=
  match c with
  | [] => (0, [])
  | d :: c' =>
      if matches k q d then (1, c')
      else let (n, c'') := delete_one k q c' in (n, d :: c'')
  end.

(** The first matching document is rewritten; the result is
    [matched_count] and the collection left. *)
Fixpoint update_first (k : string) (q : Value) (f : Document -> Document)
  (c : Collection) : nat * Collection :=
  match c with
  | [] => (0, [])
  | d :: c' =>
      if matches k q d then (1, f d :: c')
      else let (n, c'') := update_first k q f c' in (n, d :: c'')
  end.

Definition set_field (field : string) (v : Value) (d : Document) : Document :=
  {| _id := _id d; fields := dict_set field v (fields d) |}.

Fixpoint has_char (c : ascii) (s : string) : bool :=
  match s with
  | EmptyString => false
  | String c' s' => Ascii.eqb c' c || has_char c s'
  end.

(** A [$set] path that names one top-level member other than [_id]: not
    empty, no dot (a dot descends into an embedded document), no leading
    dollar sign, no NUL. *)
Definition plain_key (field : string) : bool :=
  negb (String.eqb field "")
  && negb (String.eqb field "_id")
  && negb (String.prefix "$" field)
  && negb (has_char "." field)
  && negb (has_char (ascii_of_nat 0) field).

(** What the store does with a [$set] path that is not a plain key is the
    store's business and is left open, but for one case fixed below. *)
Class PathRules :=
  update_path : string -> Value -> string -> Value -> Collection
                -> Result nat * Collection.

Definition WriteError : Exn :=
  mkExn "WriteError"
    "Performing an update on the path '_id' would modify the immutable field '_id'".

(** [update_one({k: q}, {"$set": {field: v}})].  The store refuses to
    change [_id] on a document it has matched. *)
Definition update_one `{PathRules} (k : string) (q : Value) (field : string)
  (v : Value) (c : Collection) : Result nat * Collection :=
  if plain_key field then
    let (n, c') := update_first k q (set_field field v) c in (Ok n, c')
  else if String.eqb field "_id" then
    match find_one k q c with
    | Some _ => (Raise WriteError, c)
    | None => update_path k q field v c
    end
  else update_path k q field v c.

(** One more document in the group of [k]. *)
Fixpoint bump (k : Value) (groups : list (Value * nat)) : list (Value * nat) :=
  match groups with
  | [] => [(k, 1)]
  | (k', n) :: groups' =>
      if Value_eqb k' k then (k', S n) :: groups'
      else (k', n) :: bump k groups'
  end.

(** The store promises no order for the groups of a [$group] stage: the
    order in which it hands them out is left open. *)
Class GroupOrder := {
  arrange : list (Value * nat) -> list (Value * nat);
  arrange_permutes : forall groups, Permutation (arrange groups) groups
}.

(** [aggregate([{"$group": {"_id": "$k", "count": {"$sum": 1}}}])]: one
    item [(_id, count)] per distinct value of the member [k], in the order
    the store chooses. *)
Definition aggregate_group_count `{GroupOrder} (k : string) (c : Collection)
  : list (Value * nat) :=
  arrange (fold_left (fun groups d => bump (field_value k d) groups) c []).

(** No two documents have the same [id] member (a document without one
    counts as having [None]). *)
Definition unique_ids (c : Collection) : Prop :=
  NoDup (map (field_value "id") c).

End Db.
Import Db.

(* ================================================================== *)
(** ** [backend/tools.py] *)
(* ================================================================== *)

Module Tools.

(** [students_collection]: [None] when the connection failed at start-up. *)
Definition Store := option Collection.

Definition connection_failed : string := "Error: Database connection failed.".

Definition student (id name department email : Value)
  : list (string * Value) :=
  [("id", id); ("name", name); ("department", department); ("email", email)].

Definition mock_students : list (list (string * Value)) :=
  [ student (VStr "23-1001") (VStr "Ayesha Khan") (VStr "Computer Science")
      (VStr "ayesha@saylani.edu");
    student (VStr "23-1002") (VStr "Usman Ali") (VStr "Software Engineering")
      (VStr "usman@saylani.edu");
    student (VStr "23-1003") (VStr "Fatima Rehman") (VStr "Data Science")
      (VStr "fatima@saylani.edu");
    student (VStr "23-1004") (VStr "Bilal Ahmed") (VStr "Computer Science")
      (VStr "bilal@saylani.edu");
    student (VStr "23-1005") (VStr "Sana Ejaz") (VStr "Software Engineering")
      (VStr "sana@saylani.edu") ].

Definition populate_db_with_mock_data (s : Store) : Store :=
  match s with
  | None => None
  | Some c => Some (insert_many mock_students (delete_many c))
  end.

Definition list_students (s : Store) : string :=
  match s with
  | None => connection_failed
  | Some c => dumps (JArr (map (fun d => of_dict (fields d)) c)) (Some 2)
  end.

(** [find_one({"id": id}, {"_id": 0})] gives the members without [_id];
    [if student:] is false for an empty dict. *)
Definition get_student (id : Value) (s : Store) : string :=
  match s with
  | None => connection_failed
  | Some c =>
      match find_one "id" id c with
      | Some d =>
          match fields d with
          | [] => "Error: No student found with ID " ++ str id ++ "."
          | _ :: _ => dumps (of_dict (fields d)) (Some 2)
          end
      | None => "Error: No student found with ID " ++ str id ++ "."
      end
  end.

(** The unprojected [find_one] result carries [_id], so it is true whenever
    a document is found. *)
Definition add_student (id name department email : Value) (s : Store)
  : string * Store :=
  match s with
  | None => (connection_failed, s)
  | Some c =>
      match find_one "id" id c with
      | Some _ => ("Error: Student with ID " ++ str id ++ " already exists.", s)
      | None =>
          let new_student := student id name department email in
          ("Success: Student " ++ str name ++ " with ID " ++ str id
             ++ " has been added.",
           Some (insert_one new_student c))
      end
  end.

Definition update_student `{PathRules} (id : Value) (field : string)
  (new_value : Value) (s : Store) : Result string * Store :=
  match s with
  | None => (Ok connection_failed, s)
  | Some c =>
      match update_one "id" id field new_value c with
      | (Raise e, c') => (Raise e, Some c')
      | (Ok matched_count, c') =>
          if (matched_count =? 0)%nat
          then (Ok ("Error: No student found with ID " ++ str id ++ "."),
                Some c')
          else (Ok ("Success: Student with ID " ++ str id
                      ++ " updated successfully."),
                Some c')
      end
  end.

Definition delete_student (id : Value) (s : Store) : string * Store :=
  match s with
  | None => (connection_failed, s)
  | Some c =>
      let (deleted_count, c') := delete_one "id" id c in
      if (deleted_count =? 0)%nat
      then ("Error: No student found with ID " ++ str id ++ ".", Some c')
      else ("Success: Student with ID " ++ str id ++ " has been deleted.",
            Some c')
  end.

Definition get_total_students (s : Store) : string :=
  match s with
  | None => connection_failed
  | Some c => str_int (Z.of_nat (count_documents c))
  end.

(** The dict [{item['_id']: item['count'] for item in results}]. *)
Definition dept_counts `{GroupOrder} (c : Collection) : list (Value * nat) :=
  vdict_of_items (aggregate_group_count "department" c).

Definition get_students_by_department `{GroupOrder} (s : Store) : string :=
  match s with
  | None => connection_failed
  | Some c => dumps (of_counts (dept_counts c)) (Some 2)
  end.

(** The [random] module, left open. *)
Class Random := {
  shuffle : list (list (string * Value)) -> list (list (string * Value));
  randint : nat -> nat -> nat
}.

(** [l[:limit]]: a negative bound counts from the end. *)
Definition slice_to {A : Type} (limit : option Z) (l : list A) : list A :=
  match limit with
  | None => l
  | Some k =>
      if (0 <=? k)%Z then firstn (Z.to_nat k) l
      else firstn (length l - Z.to_nat (- k)) l
  end.

Definition get_recent_onboarded_students `{Random} (limit : option Z)
  (s : Store) : string :=
  match s with
  | None => connection_failed
  | Some c =>
      let all_students := shuffle (map fields c) in
      let recent := slice_to limit all_students in
      dumps (JArr (map of_dict recent)) (Some 2)
  end.

(** [int(total_students * 0.5)] is the half rounded down. *)
Definition get_active_students_last_7_days `{Random} (s : Store) : string :=
  match s with
  | None => connection_failed
  | Some c =>
      let total_students := count_documents c in
      let active_count := randint (total_students / 2) total_students in
      str_int (Z.of_nat active_count)
  end.

Definition get_cafeteria_timings : string :=
  "The cafeteria is open from 8:00 AM to 10:00 PM.".

Definition get_library_hours : string :=
  "The library is open from 9:00 AM to 9:00 PM on weekdays and 10:00 AM to 6:00 PM on weekends.".

Definition get_event_schedule : string :=
  "Upcoming events: AI Hackathon on 25th Oct, Annual Sports Day on 15th Nov.".

(** The mock e-mail is printed to the console and not sent anywhere. *)
Definition send_email (student_id message : Value) : string :=
  "Success: A mock email has been sent to student ID " ++ str student_id ++ ".".

(** The ids of the students in the store are pairwise different; nothing
    is asked of a store that is not connected. *)
Definition store_unique_ids (s : Store) : Prop :=
  match s with
  | Some c => unique_ids c
  | None => True
  end.

(** No two values of a list are the same dict key for Python without
    being the same value for the store ([True] and [1], [False] and
    [0]). *)
Definition keys_apart (l : list Value) : bool :=
  forallb (fun a => forallb (fun b => implb (py_eqb a b) (Value_eqb a b)) l) l.

Definition departments_apart (c : Collection) : bool :=
  keys_apart (map (field_value "department") c).

(** No two values of a list are written as the same JSON key without
    being the same value for the store ([1] and ["1"], [None] and
    ["null"], [True] and ["true"]). *)
Definition keys_print_apart (l : list Value) : bool :=
  forallb (fun a =>
             forallb (fun b =>
                        implb (String.eqb (key_of_value a) (key_of_value b))
                          (Value_eqb a b)) l) l.

Definition departments_print_apart (c : Collection) : bool :=
  keys_print_apart (map (field_value "department") c).

(** The counts that a text returned by [get_students_by_department]
    carries, each with its department as written. *)
Definition counts_in (text : string) : option (list (string * Z)) :=
  match read_object text with
  | Some members => integer_members members
  | None => None
  end.

(** [counts.get(k, 0)] on the dict of department counts. *)
Definition count_of (k : Value) (counts : list (Value * nat)) : nat :=
  match find (fun kv => py_eqb (fst kv) k) counts with
  | Some kv => snd kv
  | None => 0
  end.

End Tools.
Import Tools.

(* ================================================================== *)
(** ** [backend/agent.py] *)
(* ================================================================== *)

Module Agent.

(** A tool call of an assistant turn: the keys ['name'], ['args'] and
    ['id'] of the dict. *)
Record ToolCall := {
  tc_name : string;
  tc_args : list (string * Value);
  tc_id : string
}.

Inductive BaseMessage : Type :=
| HumanMessage (content : string)
| AIMessage (content : string) (tool_calls : list ToolCall)
| ToolMessage (content : string) (tool_call_id : string).

Definition AttributeError : Exn :=
  mkExn "AttributeError" "object has no attribute 'tool_calls'".

Definition IndexError : Exn := mkExn "IndexError" "list index out of range".

Definition KeyError (k : string) : Exn := mkExn "KeyError" k.

(** [m.tool_calls]: only an assistant message has the attribute. *)
Definition tool_calls_of (m : BaseMessage) : Result (list ToolCall) :=
  match m with
  | AIMessage _ tcs => Ok tcs
  | _ => Raise AttributeError
  end.

(** [AgentState]: the one key [messages], merged by [lambda x, y: x + y]. *)
Record AgentState := { messages : list BaseMessage }.

Definition reducer (x y : list BaseMessage) : list BaseMessage := (x ++ y)%list.

Definition apply_update (st upd : AgentState) : AgentState :=
  {| messages := reducer (messages st) (messages upd) |}.

(** [l[-1]] and [l[0]]. *)
Definition last_item {A : Type} (l : list A) : Result A :=
  match rev l with
  | [] => Raise IndexError
  | x :: _ => Ok x
  end.

Definition first_item {A : Type} (l : list A) : Result A :=
  match l with
  | [] => Raise IndexError
  | x :: _ => Ok x
  end.

(** The remote collaborators.  The model answers a transcript with the
    content and the tool calls of an assistant message, or the call
    raises; the tool executor runs one tool call against the store. *)
Class ChatModel :=
  model_with_tools_invoke : list BaseMessage -> Result (string * list ToolCall).

Class ToolExecutor :=
  tool_executor_invoke : ToolCall -> Store -> Result string * Store.

(** What a run touches outside its own state: the store, and the remote
    calls it has made so far, oldest first. *)
Inductive Call : Type :=
| ModelCall (transcript : list BaseMessage)
| ToolExec (action : ToolCall).

Record World := { store : Store; log : list Call }.

(** The tool calls executed in a log, oldest first. *)
Definition executed (l : list Call) : list ToolCall :=
  flat_map (fun c => match c with ToolExec a => [a] | ModelCall _ => [] end) l.

Definition model_calls (l : list Call) : nat :=
  length (filter (fun c => match c with ModelCall _ => true | _ => false end) l).

Definition tool_execs (l : list Call) : nat :=
  length (filter (fun c => match c with ToolExec _ => true | _ => false end) l).

(** Computations that read and change the world and may raise. *)
Definition Eff (A : Type) : Type := World -> Result A * World.

Definition ret {A : Type} (a : A) : Eff A := fun w => (Ok a, w).

Definition bind {A B : Type} (m : Eff A) (k : A -> Eff B) : Eff B :=
  fun w =>
    match m w with
    | (Ok a, w') => k a w'
    | (Raise e, w') => (Raise e, w')
    end.

Definition lift {A : Type} (r : Result A) : Eff A := fun w => (r, w).

Notation "x <- m ;; k" := (bind m (fun x => k))
  (at level 61, m at next level, right associativity).

Definition invoke_model `{ChatModel} (msgs : list BaseMessage)
  : Eff (string * list ToolCall) :=
  fun w =>
    (model_with_tools_invoke msgs,
     {| store := store w; log := (log w ++ [ModelCall msgs])%list |}).

Definition invoke_tool `{ToolExecutor} (action : ToolCall) : Eff string :=
  fun w =>
    let (r, s') := tool_executor_invoke action (store w) in
    (r, {| store := s'; log := (log w ++ [ToolExec action])%list |}).

(** The node ["agent"]. *)
Definition call_model `{ChatModel} (state : AgentState) : Eff AgentState :=
  response <- invoke_model (messages state) ;;
  ret {| messages := [AIMessage (fst response) (snd response)] |}.

(** The node ["action"]; [str] of the executor's text is the text. *)
Definition call_tool `{ToolExecutor} (state : AgentState) : Eff AgentState :=
  last_message <- lift (last_item (messages state)) ;;
  requested <- lift (tool_calls_of last_message) ;;
  action <- lift (first_item requested) ;;
  tool_output <- invoke_tool action ;;
  ret {| messages := [ToolMessage tool_output (tc_id action)] |}.

(** A list is true when it is not empty. *)
Definition should_continue (state : AgentState) : Result string :=
  match last_item (messages state) with
  | Raise e => Raise e
  | Ok last_message =>
      match tool_calls_of last_message with
      | Raise e => Raise e
      | Ok [] => Ok "end"
      | Ok (_ :: _) => Ok "continue"
      end
  end.

(** The graph: entry point ["agent"]; after ["agent"] the conditional
    edges [{"continue": "action", "end": END}]; after ["action"] the edge
    to ["agent"]. *)
Inductive Node : Type := agent_node | action_node | END.

Definition conditional_edges (label : string) : Result Node :=
  if String.eqb label "continue" then Ok action_node
  else if String.eqb label "end" then Ok END
  else Raise (KeyError label).

Definition step `{ChatModel} `{ToolExecutor} (n : Node) (state : AgentState)
  : Eff (Node * AgentState) :=
  match n with
  | agent_node =>
      update <- call_model state ;;
      let state' := apply_update state update in
      label <- lift (should_continue state') ;;
      next <- lift (conditional_edges label) ;;
      ret (next, state')
  | action_node =>
      update <- call_tool state ;;
      ret (agent_node, apply_update state update)
  | END => ret (END, state)
  end.

(** The first request of every assistant turn of a transcript that carries
    requests, in order. *)
Definition first_requests (msgs : list BaseMessage) : list ToolCall :=
  flat_map (fun m => match m with
                     | AIMessage _ (first :: _) => [first]
                     | _ => []
                     end) msgs.

(** The request that is about to be executed when the graph stands at a
    node. *)
Definition pending (n : Node) (state : AgentState) : list ToolCall :=
  match n with
  | action_node =>
      match last_item (messages state) with
      | Ok (AIMessage _ (first :: _)) => [first]
      | _ => []
      end
  | _ => []
  end.

(** The graph runtime stops a run that has used up its recursion limit
    without reaching [END] and raises this error.  Its class is what tells
    it from the other failures of a run; its text, which in the library
    also names the limit and the config key, is abridged. *)
Definition GraphRecursionError : Exn :=
  mkExn "GraphRecursionError"
    "Recursion limit reached without hitting a stop condition.".


(** A run of the compiled graph under a recursion limit, counted in node
    executions: the run ends at [END], or with the exception of a node,
    or, when the limit is used up before [END], with
    [GraphRecursionError]. *)
Inductive Outcome : Type :=
| Finished (state : AgentState)
| Failed (e : Exn).

Fixpoint run `{ChatModel} `{ToolExecutor} (limit : nat) (n : Node)
  (state : AgentState) (w : World) : Outcome * World :=
  match n with
  | END => (Finished state, w)
  | _ =>
      match limit with
      | O => (Failed GraphRecursionError, w)
      | S limit' =>
          match step n state w with
          | (Ok (n', state'), w') => run limit' n' state' w'
          | (Raise e, w') => (Failed e, w')
          end
      end
  end.

(** [app.invoke({"messages": [("human", user_message)]})]; the pair is read
    as a human message. *)
Definition invoke `{ChatModel} `{ToolExecutor} (limit : nat)
  (user_message : string) (w : World) : Outcome * World :=
  run limit agent_node {| messages := [HumanMessage user_message] |} w.

(** *** The registered tools and the tool node *)

Definition Handler := list (string * Value) -> Store -> Result string * Store.

Definition TypeError : Exn := mkExn "TypeError" "bad keyword arguments".

(** A call by keyword arguments: every parameter without a default is
    supplied and no other keyword is. *)
Definition accepts (required optional : list string)
  (args : list (string * Value)) : bool :=
  forallb (fun p => existsb (fun kv => String.eqb (fst kv) p) args) required
  && forallb (fun kv => existsb (String.eqb (fst kv)) (required ++ optional)%list)
       args.

Definition InvalidDocument : Exn :=
  mkExn "InvalidDocument" "documents must have only string keys".

Definition pure_tool (out : string) : Handler :=
  fun args s => if accepts [] [] args then (Ok out, s) else (Raise TypeError, s).

Definition reading_tool (f : Store -> string) : Handler :=
  fun args s => if accepts [] [] args then (Ok (f s), s) else (Raise TypeError, s).

(** [tools]: the functions of [tools.py] under their own names. *)
Definition tools `{PathRules} `{Random} `{GroupOrder}
  : list (string * Handler) :=
  [ ("list_students", reading_tool list_students);
    ("get_student",
     fun args s =>
       if accepts ["id"] [] args
       then (Ok (get_student (get "id" args) s), s)
       else (Raise TypeError, s));
    ("add_student",
     fun args s =>
       if accepts ["id"; "name"; "department"; "email"] [] args
       then let (out, s') :=
              add_student (get "id" args) (get "name" args)
                (get "department" args) (get "email" args) s in
            (Ok out, s')
       else (Raise TypeError, s));
    ("update_student",
     fun args s =>
       if accepts ["id"; "field"; "new_value"] [] args
       then match get "field" args with
            | VStr field =>
                update_student (get "id" args) field (get "new_value" args) s
            | _ => (Raise InvalidDocument, s)
            end
       else (Raise TypeError, s));
    ("delete_student",
     fun args s =>
       if accepts ["id"] [] args
       then let (out, s') := delete_student (get "id" args) s in (Ok out, s')
       else (Raise TypeError, s));
    ("get_total_students", reading_tool get_total_students);
    ("get_students_by_department", reading_tool get_students_by_department);
    ("get_recent_onboarded_students",
     fun args s =>
       if accepts [] ["limit"] args
       then match dict_get "limit" args with
            | None => (Ok (get_recent_onboarded_students (Some 5%Z) s), s)
            | Some VNone => (Ok (get_recent_onboarded_students None s), s)
            | Some (VInt k) => (Ok (get_recent_onboarded_students (Some k) s), s)
            | Some (VBool b) =>
                (Ok (get_recent_onboarded_students
                       (Some (if b then 1%Z else 0%Z)) s), s)
            | Some (VStr _) => (Raise TypeError, s)
            end
       else (Raise TypeError, s));
    ("get_active_students_last_7_days",
     reading_tool get_active_students_last_7_days);
    ("get_cafeteria_timings", pure_tool get_cafeteria_timings);
    ("get_library_hours", pure_tool get_library_hours);
    ("get_event_schedule", pure_tool get_event_schedule);
    ("send_email",
     fun args s =>
       if accepts ["student_id"; "message"] [] args
       then (Ok (send_email (get "student_id" args) (get "message" args)), s)
       else (Raise TypeError, s)) ].

(** Modelled from the spec: the body of [ToolNode(tools).invoke], which is
    library code and not part of the repository.  The spec has the tool
    looked up by name, an unknown name reported back as a tool-result error
    string, and every failure of a handler turned into a string that
    begins with an error marker instead of crossing the registry boundary;
    otherwise the handler's string is the result. *)
Definition ToolNode_invoke (registry : list (string * Handler))
  (action : ToolCall) (s : Store) : Result string * Store :=
  match dict_get (tc_name action) registry with
  | None => (Ok ("Error: " ++ tc_name action ++ " is not a valid tool."), s)
  | Some handler =>
      match handler (tc_args action) s with
      | (Ok out, s') => (Ok out, s')
      | (Raise e, s') => (Ok ("Error: " ++ exn_msg e), s')
      end
  end.

Definition tool_executor `{PathRules} `{Random} `{GroupOrder} : ToolExecutor :=
  ToolNode_invoke tools.

(** [m.content]. *)
Definition content_of (m : BaseMessage) : string :=
  match m with
  | HumanMessage c => c
  | AIMessage c _ => c
  | ToolMessage c _ => c
  end.

(** One completed cycle as it shows in the transcript: an assistant turn
    with requests, then the tool result of its first request. *)
Record Cycle := {
  turn_content : string;
  turn_first : ToolCall;
  turn_rest : list ToolCall;
  tool_result : string
}.

Definition cycle_messages (c : Cycle) : list BaseMessage :=
  [AIMessage (turn_content c) (turn_first c :: turn_rest c);
   ToolMessage (tool_result c) (tc_id (turn_first c))].

(** The tools that write to the collection. *)
Definition writing_tools : list string :=
  ["add_student"; "update_student"; "delete_student"].

End Agent.
Import Agent.

(* ================================================================== *)
(** ** [backend/main.py] *)
(* ================================================================== *)

Module Main.

Record JSONResponse := { status_code : nat; content : json }.

(** *** The streaming gateway *)

(** An event of [agent_app.astream_events]: its name [event["event"]] and
    what [event["data"]] carries. *)
Inductive EventData : Type :=
| chunk (content : string)
| output (text : string)
| no_data.

Record Event := { event : string; data : EventData }.

(** The events a run delivers, in order, and the exception that ends the
    iteration when the run fails. *)
Record EventStream := { events : list Event; failure : option Exn }.

Definition DONE : string := "data: [DONE]" ++ newline ++ newline.

Definition sse (payload : json) : string :=
  "data: " ++ dumps payload None ++ newline ++ newline.

(** The body of the [async for] loop: what one event makes the generator
    yield. *)
Definition frames_of (e : Event) : Result (list string) :=
  let kind := event e in
  if String.eqb kind "on_chat_model_stream" then
    match data e with
    | chunk EmptyString => Ok []
    | chunk token => Ok [sse (JObj [("token", JStr token)])]
    | _ => Raise (KeyError "chunk")
    end
  else if String.eqb kind "on_tool_end" then
    match data e with
    | output text => Ok [sse (JObj [("tool_output", JStr text)])]
    | _ => Raise (KeyError "output")
    end
  else if String.eqb kind "on_end" then Ok [DONE]
  else Ok [].

Fixpoint relay (es : list Event) : list string * option Exn :=
  match es with
  | [] => ([], None)
  | e :: es' =>
      match frames_of e with
      | Raise x => ([], Some x)
      | Ok fs => let (rest, r) := relay es' in ((fs ++ rest)%list, r)
      end
  end.

(** [event_generator]: the frames put on the channel, and the exception
    that leaves the generator, if any.  Nothing surrounds the loop, so an
    exception of the run leaves the generator as it is. *)
Definition event_generator (run : EventStream) : list string * option Exn :=
  match relay (events run) with
  | (frames, Some x) => (frames, Some x)
  | (frames, None) => (frames, failure run)
  end.

Definition terminal_markers (frames : list string) : nat :=
  length (filter (String.eqb DONE) frames).

(** The events named [on_end] in a stream. *)
Definition is_on_end (e : Event) : bool := String.eqb (event e) "on_end".

Definition on_end_events (es : list Event) : nat := length (filter is_on_end es).

(** *** [POST /students] *)

(** [data] is the body of the request, a JSON object.  The four members
    read are passed to [add_student] in the order written in the source. *)
Definition add_new_student `{Decoder} (data : list (string * Value))
  (s : Store) : JSONResponse * Store :=
  let (result, s') :=
    add_student (get "name" data) (get "department" data) (get "year" data)
      (get "email" data) s in
  if startswith result "Error" then
    ({| status_code := 400; content := JObj [("error", JStr result)] |}, s')
  else
    match loads result with
    | Ok created => ({| status_code := 201; content := created |}, s')
    | Raise e =>
        ({| status_code := 500; content := JObj [("error", JStr (exn_msg e))] |},
         s')
    end.

(** *** The other endpoints *)

Definition error_response (status : nat) (text : string) : JSONResponse :=
  {| status_code := status; content := JObj [("error", JStr text)] |}.

(** [POST /chat].  [user_message] is [data.get("message")], a string or
    [None]; [limit] is the recursion limit of the runtime.  The whole body
    stands in a [try] that answers 500 with [str(e)]. *)
Definition chat_endpoint `{ChatModel} `{ToolExecutor} (limit : nat)
  (user_message : option string) (w : World) : JSONResponse * World :=
  match user_message with
  | None | Some EmptyString => (error_response 400 "Message is required.", w)
  | Some text =>
      match invoke limit text w with
      | (Finished result, w') =>
          match last_item (messages result) with
          | Ok final_message =>
              ({| status_code := 200;
                  content := JObj [("response",
                                    JStr (content_of final_message))] |},
               w')
          | Raise e => (error_response 500 (exn_msg e), w')
          end
      | (Failed e, w') => (error_response 500 (exn_msg e), w')
      end
  end.

(** [GET /analytics]: the two tool results go into the answer as they
    are, as strings. *)
Definition get_analytics `{GroupOrder} (s : Store) : JSONResponse :=
  {| status_code := 200;
     content := JObj [("total_students", JStr (get_total_students s));
                      ("students_by_department",
                       JStr (get_students_by_department s))] |}.

(** [GET /students]; nothing catches an exception of [json.loads]. *)
Definition get_all_students `{Decoder} (s : Store) : Result JSONResponse :=
  match loads (list_students s) with
  | Ok students => Ok {| status_code := 200; content := students |}
  | Raise e => Raise e
  end.

(** [GET /students/{student_id}]. *)
Definition get_student_by_id `{Decoder} (student_id : string) (s : Store)
  : Result JSONResponse :=
  let student := get_student (VStr student_id) s in
  if startswith student "Error" then Ok (error_response 404 student)
  else
    match loads student with
    | Ok record => Ok {| status_code := 200; content := record |}
    | Raise e => Raise e
    end.

(** [DELETE /students/{student_id}]. *)
Definition delete_student_record (student_id : string) (s : Store)
  : JSONResponse * Store :=
  let (result, s') := delete_student (VStr student_id) s in
  if startswith result "Error" then (error_response 404 result, s')
  else ({| status_code := 200; content := JObj [("message", JStr result)] |},
        s').

(** [GET /analytics/recent-onboarded], with the default limit of the
    tool, and [GET /analytics/active-students]. *)
Definition get_recent_onboarded `{Decoder} `{Random} (s : Store)
  : Result JSONResponse :=
  match loads (get_recent_onboarded_students (Some 5%Z) s) with
  | Ok recent =>
      Ok {| status_code := 200; content := JObj [("recent_students", recent)] |}
  | Raise e => Raise e
  end.

Definition get_active_students `{Decoder} `{Random} (s : Store)
  : Result JSONResponse :=
  match loads (get_active_students_last_7_days s) with
  | Ok active =>
      Ok {| status_code := 200; content := JObj [("active_students", active)] |}
  | Raise e => Raise e
  end.

(** A call with positional arguments only: a function of [n] parameters
    takes exactly [n] arguments. *)
Definition too_many_arguments (fname : string) (takes given : nat) : Exn :=
  mkExn "TypeError"
    (fname ++ "() takes " ++ str_int (Z.of_nat takes)
       ++ " positional arguments but " ++ str_int (Z.of_nat given)
       ++ " were given").

Definition missing_arguments (fname : string) : Exn :=
  mkExn "TypeError" (fname ++ "() missing required positional arguments").

Definition apply2 {A : Type} (fname : string) (f : Value -> Value -> A)
  (arguments : list Value) : Result A :=
  match arguments with
  | [a; b] => Ok (f a b)
  | _ =>
      if (2 <? length arguments)%nat
      then Raise (too_many_arguments fname 2 (length arguments))
      else Raise (missing_arguments fname)
  end.

Definition apply3 {A : Type} (fname : string) (f : Value -> Value -> Value -> A)
  (arguments : list Value) : Result A :=
  match arguments with
  | [a; b; c] => Ok (f a b c)
  | _ =>
      if (3 <? length arguments)%nat
      then Raise (too_many_arguments fname 3 (length arguments))
      else Raise (missing_arguments fname)
  end.

(** [PUT /students/{student_id}]: [update_student] is called with the id
    and four members of the body, inside a [try] that answers 500. *)
Definition update_student_info `{PathRules} `{Decoder} (student_id : string)
  (data : list (string * Value)) (s : Store) : JSONResponse * Store :=
  match apply3 "update_student"
          (fun id field new_value =>
             match field with
             | VStr f => update_student id f new_value s
             | _ => (Raise InvalidDocument, s)
             end)
          [VStr student_id; get "name" data; get "department" data;
           get "year" data; get "email" data] with
  | Raise e => (error_response 500 (exn_msg e), s)
  | Ok (Raise e, s') => (error_response 500 (exn_msg e), s')
  | Ok (Ok result, s') =>
      if startswith result "Error" then (error_response 404 result, s')
      else
        match loads result with
        | Ok updated => ({| status_code := 200; content := updated |}, s')
        | Raise e => (error_response 500 (exn_msg e), s')
        end
  end.

(** [POST /communication/email]: [send_email] is called with three
    members of the body, inside a [try] that answers 500. *)
Definition send_email_to_student (data : list (string * Value))
  : JSONResponse :=
  match apply2 "send_email" send_email
          [get "student_id" data; get "subject" data; get "body" data] with
  | Raise e => error_response 500 (exn_msg e)
  | Ok result =>
      if startswith result "Error" then error_response 400 result
      else {| status_code := 200; content := JObj [("message", JStr result)] |}
  end.

End Main.
Import Main.

(* ================================================================== *)
(** ** Collaborators for the examples *)
(* ================================================================== *)

Module Samples.

(** Store rules that refuse every path that is not a plain key. *)
Definition strict_paths : PathRules :=
  fun _ _ _ _ c => (Raise (mkExn "WriteError" "invalid update path"), c).

(** A random source that leaves the order alone and draws the upper
    bound. *)
Definition fixed_random : Random :=
  {| shuffle := fun l => l; randint := fun _ b => b |}.

(** A store that hands out the groups by first occurrence. *)
Definition first_occurrence : GroupOrder :=
  {| arrange := fun groups => groups;
     arrange_permutes := fun groups => Permutation_refl groups |}.

Definition registry_executor : ToolExecutor :=
  @tool_executor strict_paths fixed_random first_occurrence.

Definition mock_db : Store := populate_db_with_mock_data (Some []).

Definition fresh_world : World := {| store := mock_db; log := [] |}.

Definition library_call : ToolCall :=
  {| tc_name := "get_library_hours"; tc_args := []; tc_id := "call_1" |}.

Definition second_call : ToolCall :=
  {| tc_name := "get_event_schedule"; tc_args := []; tc_id := "call_2" |}.


(** A model that answers at once. *)
Definition direct_model : ChatModel :=
  fun _ => Ok ("The library is open from 9:00 AM.", []).

(** A model that asks for the library hours first and answers once a tool
    result is in the transcript. *)
Definition library_model : ChatModel :=
  fun transcript =>
    match transcript with
    | [_] => Ok ("", [library_call])
    | _ => Ok ("The library is open from 9:00 AM.", [])
    end.



(** A decoder that reads every text it is handed as [null]. *)
Definition null_decoder : Decoder := fun _ => Ok JNull.

(** The store after two requests [POST /students] on an empty collection,
    one with the year [1] and one with the year [true]: the endpoint
    passes the year on as the department. *)
Definition mixed_years : Store :=
  snd (@add_new_student null_decoder
         [("name", VStr "Omar"); ("department", VStr "Data Science");
          ("year", VBool true); ("email", VStr "omar@x.edu")]
         (snd (@add_new_student null_decoder
                 [("name", VStr "Sara"); ("department", VStr "Data Science");
                  ("year", VInt 1); ("email", VStr "sara@x.edu")]
                 (Some [])))).

Definition connection_error : Exn :=
  mkExn "APIConnectionError" "Connection error.".

(** A model whose call fails. *)
Definition failing_model : ChatModel := fun _ => Raise connection_error.



End Samples.
Import Samples.

(* ================================================================== *)
(** * Properties *)
(* ================================================================== *)

(** ** Values, dictionaries and the collection *)

Lemma Value_eqb_eq (a b : Value) : Value_eqb a b = true <-> a = b.
Proof.
  destruct a, b; simpl; split; intro E; try discriminate; try reflexivity.
  - apply String.eqb_eq in E. now subst.
  - inversion E. apply String.eqb_refl.
  - apply Z.eqb_eq in E. now subst.
  - inversion E. apply Z.eqb_refl.
  - apply Bool.eqb_prop in E. now subst.
  - inversion E. apply Bool.eqb_reflx.
Qed.

Lemma Value_eqb_refl (a : Value) : Value_eqb a a = true.
Proof. now apply Value_eqb_eq. Qed.

Lemma find_app_none {A : Type} (p : A -> bool) (l l' : list A) :
  find p l = None -> find p (l ++ l')%list = find p l'.
Proof.
  induction l as [|x l IH]; simpl; [reflexivity|].
  destruct (p x); [discriminate | exact IH].
Qed.

Lemma student_id (id name department email : Value) (oid : ObjectId) :
  matches "id" id {| _id := oid; fields := student id name department email |}
  = true.
Proof. unfold matches, field_value. simpl. apply Value_eqb_refl. Qed.

Lemma find_one_inserted (c : Collection) (id name department email : Value) :
  find_one "id" id c = None ->
  find_one "id" id (insert_one (student id name department email) c)
  = Some {| _id := fresh_oid c; fields := student id name department email |}.
Proof.
  intro Hfresh. unfold find_one, insert_one.
  rewrite (find_app_none _ _ _ Hfresh). simpl.
  now rewrite student_id.
Qed.

(** A delete or an update that matches nothing leaves the collection as it
    is. *)
Lemma delete_one_no_match (k : string) (q : Value) (c : Collection) :
  find_one k q c = None -> delete_one k q c = (0, c).
Proof.
  unfold find_one. induction c as [|d c IH]; simpl; [reflexivity|].
  destruct (matches k q d); [discriminate|].
  intro H. now rewrite (IH H).
Qed.

Lemma update_first_no_match (k : string) (q : Value) (f : Document -> Document)
  (c : Collection) :
  find_one k q c = None -> update_first k q f c = (0, c).
Proof.
  unfold find_one. induction c as [|d c IH]; simpl; [reflexivity|].
  destruct (matches k q d); [discriminate|].
  intro H. now rewrite (IH H).
Qed.

(** An update that matches rewrites the first match and nothing else. *)
Lemma update_first_match (k : string) (q : Value) (f : Document -> Document)
  (c : Collection) (d : Document) :
  find_one k q c = Some d ->
  exists before after,
    c = (before ++ d :: after)%list
    /\ find_one k q before = None
    /\ update_first k q f c = (1, (before ++ f d :: after)%list).
Proof.
  unfold find_one. induction c as [|x c IH]; simpl; [discriminate|].
  destruct (matches k q x) eqn:Hm.
  - intro E. inversion E; subst. exists [], c. simpl. auto.
  - intro E. destruct (IH E) as (before & after & Hc & Hnone & Hupd).
    exists (x :: before), after. simpl. rewrite Hm, Hupd, Hc. auto.
Qed.

Lemma dict_get_set_same {V : Type} (k : string) (v : V) (d : list (string * V)) :
  dict_get k (dict_set k v d) = Some v.
Proof.
  unfold dict_get. induction d as [|[k' v'] d IH]; simpl.
  - now rewrite String.eqb_refl.
  - destruct (String.eqb k' k) eqn:E; simpl; rewrite E; [reflexivity | exact IH].
Qed.

Lemma dict_get_set_other {V : Type} (k k' : string) (v : V)
  (d : list (string * V)) :
  k' <> k -> dict_get k' (dict_set k v d) = dict_get k' d.
Proof.
  intro Hne. unfold dict_get. induction d as [|[k0 v0] d IH]; simpl.
  - destruct (String.eqb k k') eqn:E; [|reflexivity].
    apply String.eqb_eq in E. congruence.
  - destruct (String.eqb k0 k) eqn:E; simpl.
    + apply String.eqb_eq in E. subst k0.
      destruct (String.eqb k k') eqn:E'; [|reflexivity].
      apply String.eqb_eq in E'. congruence.
    + destruct (String.eqb k0 k'); [reflexivity | exact IH].
Qed.

Lemma dict_set_new {V : Type} (k : string) (v : V) (d : list (string * V)) :
  dict_get k d = None -> dict_set k v d = (d ++ [(k, v)])%list.
Proof.
  unfold dict_get. induction d as [|[k' v'] d IH]; simpl; [reflexivity|].
  destruct (String.eqb k' k); [discriminate|].
  intro H. now rewrite (IH H).
Qed.

(** ** Reading a JSON text back *)

Lemma string_app_assoc (a b c : string) : (a ++ b) ++ c = a ++ (b ++ c).
Proof. induction a as [|x a IH]; simpl; [reflexivity | now rewrite IH]. Qed.

Lemma string_length_app (a b : string) :
  String.length (a ++ b) = String.length a + String.length b.
Proof. induction a as [|x a IH]; simpl; [reflexivity | now rewrite IH]. Qed.

Lemma scanstring_escape_char (c : ascii) (t : string) :
  scanstring (escape_char c ++ t) = push c (scanstring t).
Proof. destruct c as [[] [] [] [] [] [] [] []]; reflexivity. Qed.

(** A string literal reads back as the text it was written from. *)
Lemma scanstring_escape (s rest : string) :
  scanstring (escape s ++ String dquote rest) = Some (s, rest).
Proof.
  induction s as [|c s IH]; simpl; [reflexivity|].
  now rewrite string_app_assoc, scanstring_escape_char, IH.
Qed.

Lemma span_number_uint (d : Decimal.uint) (rest : string) :
  span_number rest = (EmptyString, rest) ->
  span_number (NilEmpty.string_of_uint d ++ rest)
  = (NilEmpty.string_of_uint d, rest).
Proof.
  intro Hrest. induction d; simpl; try exact Hrest;
    change (number_char _) with true; cbv iota; now rewrite IHd.
Qed.

Lemma span_number_str_int (z : Z) (rest : string) :
  span_number rest = (EmptyString, rest) ->
  span_number (str_int z ++ rest) = (str_int z, rest).
Proof.
  intro Hrest. unfold str_int, NilZero.string_of_int, NilZero.string_of_uint.
  destruct (Z.to_int z) as [d|d]; destruct d; simpl;
    change (number_char _) with true; cbv iota;
    rewrite ?Hrest, ?(span_number_uint _ _ Hrest); reflexivity.
Qed.

(** [int(str(z))] is [z]. *)
Lemma int_of_text_str_int (z : Z) : int_of_text (str_int z) = Some z.
Proof.
  unfold int_of_text, str_int. rewrite NilZero.isi.
  - simpl. now rewrite DecimalZ.of_to.
  - destruct z; simpl; try discriminate.
    intro H. inversion H as [Hnil]. now apply Unsigned.to_uint_nonnil in Hnil.
  - destruct z; simpl; try discriminate.
    intro H. inversion H as [Hnil]. now apply Unsigned.to_uint_nonnil in Hnil.
Qed.

Lemma str_int_head (z : Z) :
  exists c t,
    str_int z = String c t /\ number_char c = true
    /\ Ascii.eqb c dquote = false.
Proof.
  unfold str_int, NilZero.string_of_int, NilZero.string_of_uint.
  destruct (Z.to_int z) as [d|d]; destruct d; simpl; eauto.
Qed.

Lemma scan_int_str_int (z : Z) (c : ascii) (rest : string) :
  number_char c = false ->
  ((nat_of_ascii c =? 46) || (nat_of_ascii c =? 101)
   || (nat_of_ascii c =? 69))%nat = false ->
  scan_int (str_int z ++ String c rest) = Some (z, String c rest).
Proof.
  intros Hc Hfloat. unfold scan_int.
  rewrite span_number_str_int by (simpl; now rewrite Hc).
  now rewrite int_of_text_str_int, Hfloat.
Qed.

(** A scalar reads back as the value it was written from. *)
Lemma scan_scalar_of_value (indent : option nat) (level : nat) (v : Value)
  (c : ascii) (rest : string) :
  number_char c = false ->
  ((nat_of_ascii c =? 46) || (nat_of_ascii c =? 101)
   || (nat_of_ascii c =? 69))%nat = false ->
  scan_scalar (iterencode indent level (of_value v) ++ String c rest)
  = Some (v, String c rest).
Proof.
  intros Hc Hfloat. destruct v as [|s|z|[|]]; try reflexivity.
  - change (iterencode indent level (of_value (VStr s)) ++ String c rest)
      with (String dquote ((escape s ++ String dquote "") ++ String c rest)).
    rewrite string_app_assoc.
    change (String dquote "" ++ String c rest)
      with (String dquote (String c rest)).
    unfold scan_scalar. change (Ascii.eqb dquote dquote) with true. cbv iota.
    now rewrite scanstring_escape.
  - change (iterencode indent level (of_value (VInt z))) with (str_int z).
    pose proof (scan_int_str_int z c rest Hc Hfloat) as Hint.
    destruct (str_int_head z) as (c0 & t & Hz & Hnum & Hquote).
    rewrite Hz in *. simpl. simpl in Hint.
    now rewrite Hquote, Hnum, Hint.
Qed.

Lemma skip_whitespace_spaces (n : nat) (t : string) :
  skip_whitespace (spaces n ++ t) = skip_whitespace t.
Proof. induction n as [|n IH]; simpl; [reflexivity | exact IH]. Qed.

Lemma skip_whitespace_value (indent : option nat) (level : nat) (v : Value)
  (rest : string) :
  skip_whitespace (iterencode indent level (of_value v) ++ rest)
  = iterencode indent level (of_value v) ++ rest.
Proof.
  destruct v as [|s|z|[|]]; try reflexivity.
  change (iterencode indent level (of_value (VInt z))) with (str_int z).
  destruct (str_int_head z) as (c0 & t & Hz & Hnum & _). rewrite Hz. simpl.
  replace (is_whitespace c0) with false; [reflexivity|].
  revert Hnum. clear.
  destruct c0 as [[] [] [] [] [] [] [] []]; vm_compute; congruence.
Qed.

(** One member, followed by a comma or a line break. *)
Lemma scan_member (indent : option nat) (level a fuel : nat)
  (kv : string * Value) (c : ascii) (rest : string) :
  number_char c = false ->
  ((nat_of_ascii c =? 46) || (nat_of_ascii c =? 101)
   || (nat_of_ascii c =? 69))%nat = false ->
  scan_members (S fuel)
    (newline ++ spaces a ++ encode_basestring_ascii (fst kv) ++ ": "
     ++ iterencode indent level (of_value (snd kv)) ++ String c rest)
  = match skip_whitespace (String c rest) with
    | EmptyString => None
    | String c' s5 =>
        if (nat_of_ascii c' =? 44)%nat
        then option_map (cons kv) (scan_members fuel s5)
        else if (nat_of_ascii c' =? 125)%nat
             then match skip_whitespace s5 with
                  | EmptyString => Some [kv]
                  | String _ _ => None
                  end
             else None
    end.
Proof.
  intros Hc Hfloat. destruct kv as [k v]. simpl fst. simpl snd.
  cbn [scan_members].
  change (newline ++ ?t) with (String (ascii_of_nat 10) t).
  cbn [skip_whitespace]. change (is_whitespace (ascii_of_nat 10)) with true.
  cbv iota. rewrite skip_whitespace_spaces.
  unfold encode_basestring_ascii.
  change ((String dquote ?x) ++ ?y) with (String dquote (x ++ y)).
  cbn [skip_whitespace]. change (is_whitespace dquote) with false. cbv iota.
  cbn [strip_prefix]. change (Ascii.eqb dquote dquote) with true. cbv iota.
  rewrite !string_app_assoc.
  change (String dquote "" ++ ?y) with (String dquote y).
  rewrite scanstring_escape.
  change (": " ++ ?y) with (String ":" (String " " y)).
  cbn [skip_whitespace strip_prefix].
  change (is_whitespace ":") with false. cbv iota.
  change (Ascii.eqb ":" ":") with true. cbv iota.
  cbn [skip_whitespace]. change (is_whitespace " ") with true. cbv iota.
  rewrite skip_whitespace_value, scan_scalar_of_value by assumption.
  reflexivity.
Qed.

Lemma concat_cons_cons (sep x y : string) (l : list string) :
  String.concat sep (x :: y :: l) = x ++ sep ++ String.concat sep (y :: l).
Proof. reflexivity. Qed.

(** The members of an object written with an indentation read back as
    they were written. *)
Lemma scan_members_text (indent : option nat) (level a b : nat)
  (ms : list (string * Value)) :
  forall fuel,
    ms <> [] ->
    length ms <= fuel ->
    scan_members fuel
      (newline ++ spaces a
       ++ String.concat ("," ++ newline ++ spaces a)
            (map (fun kv => encode_basestring_ascii (fst kv) ++ ": "
                            ++ iterencode indent level (of_value (snd kv)))
               ms)
       ++ newline ++ spaces b ++ "}")
    = Some ms.
Proof.
  induction ms as [|kv ms IH]; intros fuel Hne Hlen; [congruence|].
  destruct fuel as [|fuel]; [simpl in Hlen; lia|].
  destruct ms as [|kv' ms].
  - cbn [map String.concat]. rewrite !string_app_assoc.
    change (newline ++ spaces b ++ "}")
      with (String (ascii_of_nat 10) (spaces b ++ "}")).
    rewrite (scan_member indent level a fuel kv) by reflexivity.
    cbn [skip_whitespace].
    change (is_whitespace (ascii_of_nat 10)) with true. cbv iota.
    rewrite skip_whitespace_spaces. reflexivity.
  - set (f := fun kv : string * Value =>
                encode_basestring_ascii (fst kv) ++ ": "
                ++ iterencode indent level (of_value (snd kv))) in *.
    change (map f (kv :: kv' :: ms)) with (f kv :: f kv' :: map f ms).
    rewrite concat_cons_cons.
    change (f kv' :: map f ms) with (map f (kv' :: ms)).
    change (f kv) with (encode_basestring_ascii (fst kv) ++ ": "
                        ++ iterencode indent level (of_value (snd kv))).
    rewrite !string_app_assoc.
    change ("," ++ ?t) with (String "," t).
    rewrite (scan_member indent level a fuel kv) by reflexivity.
    cbn [skip_whitespace]. change (is_whitespace ",") with false.
    cbv iota. change (nat_of_ascii "," =? 44)%nat with true. cbv iota.
    rewrite IH; [reflexivity | discriminate | simpl length in *; lia].
Qed.

Lemma concat_length (sep : string) (l : list string) :
  (forall x, In x l -> 1 <= String.length x) ->
  length l <= String.length (String.concat sep l).
Proof.
  induction l as [|x l IH]; intro Hall; [simpl; lia|].
  destruct l as [|y l].
  - simpl. apply Hall. now left.
  - rewrite concat_cons_cons, !string_length_app.
    assert (1 <= String.length x) by (apply Hall; now left).
    assert (length (y :: l) <= String.length (String.concat sep (y :: l)))
      by (apply IH; intros z Hz; apply Hall; now right).
    simpl length in *. lia.
Qed.

(** The text that [dumps] writes for a dict of scalars with an
    indentation reads back as the members of the dict, in their order. *)
Lemma read_object_dumps (d : list (string * Value)) (n : nat) :
  read_object (dumps (of_dict d) (Some n)) = Some d.
Proof.
  destruct d as [|kv d]; [reflexivity|].
  unfold dumps, of_dict.
  set (ms := kv :: d).
  assert (iterencode (Some n) 0
            (JObj (map (fun kv => (fst kv, of_value (snd kv))) ms))
          = "{" ++ (newline ++ spaces (n * 1)
                    ++ String.concat ("," ++ newline ++ spaces (n * 1))
                         (map (fun kv =>
                                 encode_basestring_ascii (fst kv) ++ ": "
                                 ++ iterencode (Some n) 1 (of_value (snd kv)))
                            ms)
                    ++ newline ++ spaces (n * 0) ++ "}")) as ->.
  { unfold ms. cbn [map iterencode]. rewrite map_map. cbn [fst snd].
    now rewrite !string_app_assoc. }
  unfold read_object.
  change ("{" ++ ?t) with (String "{" t).
  cbn [skip_whitespace]. change (is_whitespace "{") with false. cbv iota.
  cbn [strip_prefix]. change (Ascii.eqb "{" "{") with true. cbv iota.
  assert (exists t,
             skip_whitespace
               (newline ++ spaces (n * 1)
                ++ String.concat ("," ++ newline ++ spaces (n * 1))
                     (map (fun kv =>
                             encode_basestring_ascii (fst kv) ++ ": "
                             ++ iterencode (Some n) 1 (of_value (snd kv)))
                        ms)
                ++ newline ++ spaces (n * 0) ++ "}")
             = String dquote t) as [t ->].
  { change (newline ++ ?t) with (String (ascii_of_nat 10) t).
    cbn [skip_whitespace]. change (is_whitespace (ascii_of_nat 10)) with true.
    cbv iota. rewrite skip_whitespace_spaces. unfold ms.
    destruct d as [|kv' d]; cbn [map String.concat];
      unfold encode_basestring_ascii; simpl; eauto. }
  change (nat_of_ascii dquote =? 125)%nat with false. cbv iota.
  apply scan_members_text; [discriminate|].
  cbn [String.length]. rewrite !string_length_app.
  pose proof (concat_length ("," ++ newline ++ spaces (n * 1))
                (map (fun kv =>
                        encode_basestring_ascii (fst kv) ++ ": "
                        ++ iterencode (Some n) 1 (of_value (snd kv)))
                   ms)) as Hlen.
  rewrite length_map in Hlen.
  assert (length ms
          <= String.length
               (String.concat ("," ++ newline ++ spaces (n * 1))
                  (map (fun kv =>
                          encode_basestring_ascii (fst kv) ++ ": "
                          ++ iterencode (Some n) 1 (of_value (snd kv)))
                     ms))) as Hge.
  { apply Hlen. intros x Hx. apply in_map_iff in Hx.
    destruct Hx as (kv0 & <- & _). simpl. lia. }
  lia.
Qed.

Lemma of_counts_of_dict (d : list (Value * nat)) :
  of_counts d
  = of_dict (map (fun kv => (key_of_value (fst kv), VInt (Z.of_nat (snd kv))))
               d).
Proof. unfold of_counts, of_dict. now rewrite map_map. Qed.

Lemma integer_members_counts (d : list (Value * nat)) :
  integer_members
    (map (fun kv => (key_of_value (fst kv), VInt (Z.of_nat (snd kv)))) d)
  = Some (map (fun kv => (key_of_value (fst kv), Z.of_nat (snd kv))) d).
Proof.
  induction d as [|[k n] d IH]; simpl; [reflexivity|]. now rewrite IH.
Qed.

Lemma sum_Z_of_nat (l : list nat) :
  sum_Z (map Z.of_nat l) = Z.of_nat (list_sum l).
Proof. induction l as [|n l IH]; simpl; [reflexivity|]. rewrite IH. lia. Qed.

Lemma NoDup_map_on {A B : Type} (f : A -> B) (l : list A) :
  (forall a b, In a l -> In b l -> f a = f b -> a = b) ->
  NoDup l -> NoDup (map f l).
Proof.
  intros Hinj Hnd. induction Hnd as [|x l Hnin Hnd IH]; simpl; constructor.
  - intro Hin. apply in_map_iff in Hin. destruct Hin as (y & Hy & Hyl).
    assert (y = x) by (apply Hinj; [now right | now left | exact Hy]).
    subst. contradiction.
  - apply IH. intros a b Ha Hb. apply Hinj; now right.
Qed.

(** ** [backend/tools.py] *)

(** C6.  When no student has the id, [add_student] returns its success
    string, and [get_student] with that id then returns, not an error
    string, but a JSON text that says exactly this record: read back, the
    text gives the id, the name, the department and the email that were
    added, and no other member. *)
Theorem add_student_then_get_student
  (c : Collection) (id name department email : Value) :
  find_one "id" id c = None ->
  fst (add_student id name department email (Some c))
  = "Success: Student " ++ str name ++ " with ID " ++ str id
      ++ " has been added."
  /\ read_object
       (get_student id (snd (add_student id name department email (Some c))))
     = Some [("id", id); ("name", name); ("department", department);
             ("email", email)]
  /\ get_student id (snd (add_student id name department email (Some c)))
     = dumps (of_dict [("id", id); ("name", name);
                       ("department", department); ("email", email)])
         (Some 2)
  /\ startswith
       (get_student id (snd (add_student id name department email (Some c))))
       "Error" = false.
Proof.
  intro Hfresh. unfold add_student. rewrite Hfresh. cbn [fst snd].
  assert (get_student id
            (Some (insert_one (student id name department email) c))
          = dumps (of_dict [("id", id); ("name", name);
                            ("department", department); ("email", email)])
              (Some 2)) as Htext.
  { unfold get_student.
    now rewrite (find_one_inserted _ _ name department email Hfresh). }
  rewrite Htext, read_object_dumps. repeat split.
Qed.

Lemma add_student_then_get_student_witness :
  fst (add_student (VStr "23-9999") (VStr "Omar") (VStr "Data Science")
         (VStr "omar@x.edu") (populate_db_with_mock_data (Some [])))
  = "Success: Student Omar with ID 23-9999 has been added."
  /\ read_object
       (get_student (VStr "23-9999")
          (snd (add_student (VStr "23-9999") (VStr "Omar")
                  (VStr "Data Science") (VStr "omar@x.edu")
                  (populate_db_with_mock_data (Some [])))))
     = Some [("id", VStr "23-9999"); ("name", VStr "Omar");
             ("department", VStr "Data Science");
             ("email", VStr "omar@x.edu")]
  /\ get_student (VStr "23-9999")
       (snd (add_student (VStr "23-9999") (VStr "Omar") (VStr "Data Science")
               (VStr "omar@x.edu") (populate_db_with_mock_data (Some []))))
     = dumps (of_dict [("id", VStr "23-9999"); ("name", VStr "Omar");
                       ("department", VStr "Data Science");
                       ("email", VStr "omar@x.edu")])
         (Some 2)
  /\ startswith
       (get_student (VStr "23-9999")
          (snd (add_student (VStr "23-9999") (VStr "Omar")
                  (VStr "Data Science") (VStr "omar@x.edu")
                  (populate_db_with_mock_data (Some [])))))
       "Error" = false.
Proof.
  apply (add_student_then_get_student
           (insert_many mock_students (delete_many []))
           (VStr "23-9999") (VStr "Omar") (VStr "Data Science")
           (VStr "omar@x.edu")).
  reflexivity.
Defined.

(** C7.  A failed mutation changes nothing: [add_student] with an id that
    is already there returns the duplicate-id error and the same
    collection, and [delete_student] with an id that is not there returns
    the not-found error and the same collection, hence the same count. *)
Theorem failed_mutation_leaves_collection (c : Collection) (id : Value) :
  (forall (name department email : Value) (d : Document),
      find_one "id" id c = Some d ->
      add_student id name department email (Some c)
      = ("Error: Student with ID " ++ str id ++ " already exists.", Some c))
  /\ (find_one "id" id c = None ->
      delete_student id (Some c)
      = ("Error: No student found with ID " ++ str id ++ ".", Some c)
      /\ get_total_students (snd (delete_student id (Some c)))
         = get_total_students (Some c)).
Proof.
  split.
  - intros name department email d Hfound. unfold add_student.
    now rewrite Hfound.
  - intro Hnone. unfold delete_student.
    rewrite (delete_one_no_match _ _ _ Hnone). simpl. auto.
Qed.

Lemma failed_mutation_leaves_collection_witness :
  add_student (VStr "23-1001") (VStr "Someone") (VStr "Physics")
    (VStr "s@x.edu") (populate_db_with_mock_data (Some []))
  = ("Error: Student with ID 23-1001 already exists.",
     populate_db_with_mock_data (Some []))
  /\ delete_student (VStr "00-0000") (populate_db_with_mock_data (Some []))
     = ("Error: No student found with ID 00-0000.",
        populate_db_with_mock_data (Some [])).
Proof.
  split.
  - destruct (failed_mutation_leaves_collection
                (insert_many mock_students (delete_many [])) (VStr "23-1001"))
      as [Hadd _].
    exact (Hadd (VStr "Someone") (VStr "Physics") (VStr "s@x.edu") _ eq_refl).
  - destruct (failed_mutation_leaves_collection
                (insert_many mock_students (delete_many [])) (VStr "00-0000"))
      as [_ Hdel].
    exact (proj1 (Hdel eq_refl)).
Defined.

(** *** Grouping by department *)

Lemma bump_sum (k : Value) (groups : list (Value * nat)) :
  list_sum (map snd (bump k groups)) = S (list_sum (map snd groups)).
Proof.
  induction groups as [|[k' n] groups IH]; simpl; [reflexivity|].
  destruct (Value_eqb k' k); simpl; [reflexivity|].
  rewrite IH. lia.
Qed.

Lemma bump_keys (k : Value) (groups : list (Value * nat)) :
  (In k (map fst groups) /\ map fst (bump k groups) = map fst groups)
  \/ (~ In k (map fst groups)
      /\ map fst (bump k groups) = (map fst groups ++ [k])%list).
Proof.
  induction groups as [|[k' n] groups IH]; simpl.
  - right. split; [tauto | reflexivity].
  - destruct (Value_eqb k' k) eqn:E; simpl.
    + apply Value_eqb_eq in E. left. auto.
    + assert (k' <> k) as Hne.
      { intro Heq. subst. rewrite Value_eqb_refl in E. discriminate. }
      destruct IH as [[Hin Hk] | [Hnin Hk]]; rewrite Hk.
      * left. auto.
      * right. split; [tauto | reflexivity].
Qed.

Lemma bump_distinct (k : Value) (groups : list (Value * nat)) :
  NoDup (map fst groups) -> NoDup (map fst (bump k groups)).
Proof.
  intro Hnd. destruct (bump_keys k groups) as [[_ Hk] | [Hnin Hk]]; rewrite Hk.
  - exact Hnd.
  - apply NoDup_app; [exact Hnd | repeat constructor; simpl; tauto |].
    intros x Hx [Hx' | []]. subst. contradiction.
Qed.

Lemma fold_bump_sum (k : string) (c : Collection) (groups : list (Value * nat)) :
  list_sum (map snd (fold_left (fun g d => bump (field_value k d) g) c groups))
  = list_sum (map snd groups) + length c.
Proof.
  revert groups. induction c as [|d c IH]; intro groups; simpl; [lia|].
  rewrite IH, bump_sum. lia.
Qed.

Lemma fold_bump_distinct (k : string) (c : Collection)
  (groups : list (Value * nat)) :
  NoDup (map fst groups) ->
  NoDup (map fst (fold_left (fun g d => bump (field_value k d) g) c groups)).
Proof.
  revert groups. induction c as [|d c IH]; intros groups Hnd; simpl.
  - exact Hnd.
  - apply IH, bump_distinct, Hnd.
Qed.

(** Every group key is the value some document has in the member. *)
Lemma fold_bump_keys (k : string) (c : Collection)
  (groups : list (Value * nat)) (key : Value) :
  In key (map fst (fold_left (fun g d => bump (field_value k d) g) c groups)) ->
  In key (map fst groups) \/ In key (map (field_value k) c).
Proof.
  revert groups. induction c as [|d c IH]; intros groups Hin; simpl in *.
  - now left.
  - apply IH in Hin. destruct Hin as [Hin|Hin]; [|right; now right].
    destruct (bump_keys (field_value k d) groups) as [[_ Hk]|[_ Hk]];
      rewrite Hk in Hin; [now left|].
    apply in_app_or in Hin. destruct Hin as [Hin|[<-|[]]];
      [now left | right; now left].
Qed.

Lemma list_sum_permutation (l l' : list nat) :
  Permutation l l' -> list_sum l = list_sum l'.
Proof. induction 1; simpl; lia. Qed.

Section Groups.

Context {order : GroupOrder}.

(** The store counts every document in exactly one group, whatever the
    order of the groups. *)
Lemma aggregate_group_count_sum (k : string) (c : Collection) :
  list_sum (map snd (aggregate_group_count k c)) = count_documents c.
Proof.
  unfold aggregate_group_count.
  rewrite (list_sum_permutation _ _
             (Permutation_map snd (arrange_permutes _))).
  now rewrite fold_bump_sum.
Qed.

Lemma aggregate_group_count_distinct (k : string) (c : Collection) :
  NoDup (map fst (aggregate_group_count k c)).
Proof.
  unfold aggregate_group_count.
  apply (Permutation_NoDup
           (Permutation_sym (Permutation_map fst (arrange_permutes _)))).
  apply fold_bump_distinct. constructor.
Qed.

Lemma aggregate_group_count_keys (k : string) (c : Collection) (key : Value) :
  In key (map fst (aggregate_group_count k c)) ->
  In key (map (field_value k) c).
Proof.
  unfold aggregate_group_count. intro Hin.
  apply (Permutation_in _ (Permutation_map fst (arrange_permutes _))) in Hin.
  apply fold_bump_keys in Hin. destruct Hin as [[]|Hin]. exact Hin.
Qed.

End Groups.

Lemma keys_apart_spec (l : list Value) (a b : Value) :
  keys_apart l = true -> In a l -> In b l -> py_eqb a b = true -> a = b.
Proof.
  unfold keys_apart. intros Hall Ha Hb Heq.
  rewrite forallb_forall in Hall. specialize (Hall a Ha).
  rewrite forallb_forall in Hall. specialize (Hall b Hb).
  rewrite Heq in Hall. simpl in Hall. now apply Value_eqb_eq.
Qed.

Lemma vdict_set_new {V : Type} (k : Value) (v : V) (d : list (Value * V)) :
  (forall k', In k' (map fst d) -> py_eqb k' k = false) ->
  vdict_set k v d = (d ++ [(k, v)])%list.
Proof.
  induction d as [|[k' v'] d IH]; simpl; intro Hnew; [reflexivity|].
  rewrite (Hnew k') by now left.
  rewrite IH; [reflexivity|]. intros k0 Hk0. apply Hnew. now right.
Qed.

Lemma fold_vdict_set_distinct {V : Type} (items d : list (Value * V)) :
  NoDup (map fst (d ++ items)%list) ->
  (forall a b, In a (map fst (d ++ items)%list) ->
               In b (map fst (d ++ items)%list) ->
               py_eqb a b = true -> a = b) ->
  fold_left (fun acc kv => vdict_set (fst kv) (snd kv) acc) items d
  = (d ++ items)%list.
Proof.
  revert d. induction items as [|[k v] items IH]; intros d Hnd Hapart; simpl.
  - now rewrite app_nil_r.
  - rewrite vdict_set_new.
    + rewrite IH; rewrite <- app_assoc; [reflexivity | exact Hnd | exact Hapart].
    + intros k' Hk'. destruct (py_eqb k' k) eqn:E; [|reflexivity].
      exfalso. rewrite map_app in Hnd. simpl in Hnd.
      pose proof (NoDup_remove_2 _ _ _ Hnd) as Hnotin.
      apply Hnotin. apply in_or_app. left.
      replace k with k'; [exact Hk'|].
      apply Hapart; [| |exact E]; rewrite map_app; apply in_or_app.
      * now left.
      * right. now left.
Qed.

(** The comprehension over items whose keys Python keeps apart keeps every
    item. *)
Lemma vdict_of_items_distinct {V : Type} (items : list (Value * V)) :
  NoDup (map fst items) ->
  (forall a b, In a (map fst items) -> In b (map fst items) ->
               py_eqb a b = true -> a = b) ->
  vdict_of_items items = items.
Proof.
  intros Hnd Hapart. unfold vdict_of_items.
  now rewrite fold_vdict_set_distinct.
Qed.

Lemma dept_counts_aggregate {order : GroupOrder} (c : Collection) :
  departments_apart c = true ->
  dept_counts c = aggregate_group_count "department" c.
Proof.
  intro Hapart. unfold dept_counts.
  apply vdict_of_items_distinct; [apply aggregate_group_count_distinct|].
  intros a b Ha Hb. apply (keys_apart_spec _ a b Hapart);
    now apply aggregate_group_count_keys.
Qed.

Lemma dept_counts_sum {order : GroupOrder} (c : Collection) :
  departments_apart c = true ->
  list_sum (map snd (dept_counts c)) = count_documents c.
Proof.
  intro Hapart. rewrite (dept_counts_aggregate c Hapart).
  apply aggregate_group_count_sum.
Qed.

Lemma keys_print_apart_spec (l : list Value) (a b : Value) :
  keys_print_apart l = true -> In a l -> In b l ->
  key_of_value a = key_of_value b -> a = b.
Proof.
  unfold keys_print_apart. intros Hall Ha Hb Heq.
  rewrite forallb_forall in Hall. specialize (Hall a Ha).
  rewrite forallb_forall in Hall. specialize (Hall b Hb).
  rewrite Heq, String.eqb_refl in Hall. simpl in Hall.
  now apply Value_eqb_eq.
Qed.

(** Departments that are all strings are kept apart by Python and in the
    JSON text. *)
Lemma string_departments_apart (c : Collection) :
  (forall d, In d c -> exists s, field_value "department" d = VStr s) ->
  departments_apart c = true /\ departments_print_apart c = true.
Proof.
  intro Hstr.
  assert (forall v, In v (map (field_value "department") c) ->
                    exists s, v = VStr s) as Hall.
  { intros v Hv. apply in_map_iff in Hv. destruct Hv as (d & <- & Hd).
    now apply Hstr. }
  unfold departments_apart, keys_apart, departments_print_apart,
    keys_print_apart.
  split; apply forallb_forall; intros a Ha; apply forallb_forall;
    intros b Hb; destruct (Hall a Ha) as [s ->];
    destruct (Hall b Hb) as [t ->]; simpl; now destruct (String.eqb s t).
Qed.

(** C8, as stated, fails, whatever the order in which the store hands
    out the groups: after two requests [POST /students] with the years
    [true] and [1] the store holds two students in two groups, which are
    one key of the Python dict, and the text returned carries one count of
    1 where [get_total_students] returns 2. *)
Lemma true_and_one_lose_a_count :
  ~ (exists order : GroupOrder,
        forall c : Collection,
        exists counts,
          counts_in (@get_students_by_department order (Some c)) = Some counts
          /\ int_of_text (get_total_students (Some c))
             = Some (sum_Z (map snd counts))).
Proof.
  intros [order Hall].
  pose (c := match mixed_years with Some c => c | None => [] end).
  destruct (Hall c) as (counts & Hcounts & Htotal).
  change (int_of_text (get_total_students (Some c))) with (Some 2%Z) in Htotal.
  change (@get_students_by_department order (Some c))
    with (dumps (of_counts
                   (vdict_of_items (arrange [(VInt 1, 1); (VBool true, 1)])))
            (Some 2)) in Hcounts.
  pose proof (Permutation_sym
                (arrange_permutes [(VInt 1, 1); (VBool true, 1)])) as Hperm.
  apply Permutation_length_2_inv in Hperm.
  destruct Hperm as [Hperm|Hperm]; rewrite Hperm in Hcounts;
    vm_compute in Hcounts; inversion Hcounts; subst; discriminate Htotal.
Qed.

(** C8, as amended.  When the department values are [None], strings,
    integers or booleans, and no two of them that the store groups apart
    are the same key for Python or are written as the same JSON key, the
    text returned by [get_students_by_department] carries one count for
    each department, under keys that are all different, and these counts
    sum to exactly the number that the text returned by
    [get_total_students] says.  This is so in particular when every
    student has a string as department. *)
Theorem department_counts_sum_to_total {order : GroupOrder} (c : Collection) :
  (departments_apart c = true ->
   departments_print_apart c = true ->
   exists counts,
     counts_in (get_students_by_department (Some c)) = Some counts
     /\ NoDup (map fst counts)
     /\ int_of_text (get_total_students (Some c))
        = Some (sum_Z (map snd counts)))
  /\ ((forall d, In d c -> exists s, field_value "department" d = VStr s) ->
      departments_apart c = true /\ departments_print_apart c = true).
Proof.
  split; [|apply string_departments_apart].
  intros Hapart Hprint.
  exists (map (fun kv => (key_of_value (fst kv), Z.of_nat (snd kv)))
            (dept_counts c)).
  split; [|split].
  - unfold counts_in, get_students_by_department.
    rewrite of_counts_of_dict, read_object_dumps.
    apply integer_members_counts.
  - rewrite map_map. cbn [fst].
    rewrite <- (map_map fst key_of_value).
    apply NoDup_map_on.
    + intros a b Ha Hb. rewrite (dept_counts_aggregate c Hapart) in Ha, Hb.
      apply (keys_print_apart_spec _ a b Hprint);
        now apply aggregate_group_count_keys.
    + rewrite (dept_counts_aggregate c Hapart).
      apply aggregate_group_count_distinct.
  - unfold get_total_students. rewrite int_of_text_str_int.
    rewrite map_map. cbn [snd]. rewrite <- (map_map snd Z.of_nat).
    now rewrite sum_Z_of_nat, (dept_counts_sum c Hapart).
Qed.

Lemma department_counts_sum_to_total_witness :
  exists counts,
    counts_in (@get_students_by_department first_occurrence mock_db)
    = Some counts
    /\ NoDup (map fst counts)
    /\ int_of_text (get_total_students mock_db)
       = Some (sum_Z (map snd counts)).
Proof.
  apply (proj1 (@department_counts_sum_to_total first_occurrence
                  (insert_many mock_students (delete_many []))));
    reflexivity.
Defined.

(** *** Updates *)

(** C10, as amended.  For a student id present in the store and a field
    name that is a plain top-level key (not empty, no dot, no leading
    dollar sign, no NUL, and not [_id]), [update_student] returns the
    success string and rewrites the first record with that id and no
    other: there the field holds the new value and every other member is
    as before; a name outside name, department and email is not rejected:
    a field the record did not have is added after the others. *)
Theorem update_student_sets_plain_field `{PathRules}
  (c : Collection) (id : Value) (field : string) (new_value : Value)
  (d : Document) :
  plain_key field = true ->
  find_one "id" id c = Some d ->
  exists before after,
    c = (before ++ d :: after)%list
    /\ find_one "id" id before = None
    /\ update_student id field new_value (Some c)
       = (Ok ("Success: Student with ID " ++ str id
                ++ " updated successfully."),
          Some (before ++ set_field field new_value d :: after)%list)
    /\ dict_get field (fields (set_field field new_value d)) = Some new_value
    /\ (forall k, k <> field ->
          dict_get k (fields (set_field field new_value d))
          = dict_get k (fields d))
    /\ (dict_get field (fields d) = None ->
        fields (set_field field new_value d)
        = (fields d ++ [(field, new_value)])%list).
Proof.
  intros Hplain Hfound.
  destruct (update_first_match "id" id (set_field field new_value) c d Hfound)
    as (before & after & Hc & Hnone & Hupd).
  exists before, after. repeat split; try assumption.
  - unfold update_student, update_one. now rewrite Hplain, Hupd.
  - apply dict_get_set_same.
  - intros k Hne. now apply dict_get_set_other.
  - apply dict_set_new.
Qed.

Lemma update_student_sets_plain_field_witness :
  exists before after,
    insert_many mock_students [] = (before ++
      {| _id := 2;
         fields := student (VStr "23-1002") (VStr "Usman Ali")
                     (VStr "Software Engineering") (VStr "usman@saylani.edu") |}
      :: after)%list
    /\ fst (@update_student strict_paths (VStr "23-1002") "nickname"
              (VStr "Uzi") (Some (insert_many mock_students [])))
       = Ok "Success: Student with ID 23-1002 updated successfully.".
Proof.
  destruct (@update_student_sets_plain_field strict_paths
              (insert_many mock_students []) (VStr "23-1002") "nickname"
              (VStr "Uzi")
              {| _id := 2;
                 fields := student (VStr "23-1002") (VStr "Usman Ali")
                             (VStr "Software Engineering")
                             (VStr "usman@saylani.edu") |}
              eq_refl eq_refl)
    as (before & after & Hc & _ & Hupd & _).
  exists before, after. split; [exact Hc|]. now rewrite Hupd.
Defined.

(** C10, as stated, fails: with the field name [_id] the store refuses the
    update of a record it has matched, and [update_student] raises instead
    of returning the success string. *)
Lemma update_student_refuses_id_path :
  ~ (forall (rules : PathRules) (c : Collection) (id : Value)
       (field : string) (new_value : Value) (d : Document),
        find_one "id" id c = Some d ->
        fst (@update_student rules id field new_value (Some c))
        = Ok ("Success: Student with ID " ++ str id
                ++ " updated successfully.")).
Proof.
  intro Hall.
  specialize (Hall strict_paths (insert_many mock_students [])
                (VStr "23-1001") "_id" (VStr "x") _ eq_refl).
  discriminate Hall.
Qed.

(** ** [backend/agent.py] *)

Lemma Node_eq_dec (n m : Node) : {n = m} + {n <> m}.
Proof. decide equality. Qed.

Lemma last_item_app {A : Type} (l : list A) (x : A) :
  last_item (l ++ [x])%list = Ok x.
Proof. unfold last_item. now rewrite rev_unit. Qed.

Lemma model_calls_app (l l' : list Call) :
  model_calls (l ++ l')%list = model_calls l + model_calls l'.
Proof. unfold model_calls. now rewrite filter_app, length_app. Qed.

Lemma tool_execs_app (l l' : list Call) :
  tool_execs (l ++ l')%list = tool_execs l + tool_execs l'.
Proof. unfold tool_execs. now rewrite filter_app, length_app. Qed.



(** Counting the calls in a log that ends with known entries. *)
Ltac count_calls :=
  simpl; rewrite ?model_calls_app, ?tool_execs_app;
  unfold model_calls, tool_execs; simpl; lia.

Section Graph.

Context {model : ChatModel} {executor : ToolExecutor}.

(** The node ["agent"] followed by its conditional edges. *)
Lemma step_agent (state : AgentState) (w : World) :
  step agent_node state w
  = match model_with_tools_invoke (messages state) with
    | Ok (content, requested) =>
        (Ok (match requested with [] => END | _ :: _ => action_node end,
             {| messages := (messages state
                             ++ [AIMessage content requested])%list |}),
         {| store := store w;
            log := (log w ++ [ModelCall (messages state)])%list |})
    | Raise e =>
        (Raise e,
         {| store := store w;
            log := (log w ++ [ModelCall (messages state)])%list |})
    end.
Proof.
  unfold step, call_model, invoke_model, bind, ret, lift. simpl.
  destruct (model_with_tools_invoke (messages state)) as [[content requested]|e];
    [|reflexivity].
  unfold should_continue, apply_update, reducer. simpl.
  rewrite last_item_app. simpl. now destruct requested.
Qed.

(** The node ["action"] on a transcript that ends with an assistant turn
    carrying requests. *)
Lemma step_action (state : AgentState) (w : World) (content : string)
  (first : ToolCall) (rest : list ToolCall) :
  last_item (messages state) = Ok (AIMessage content (first :: rest)) ->
  step action_node state w
  = match tool_executor_invoke first (store w) with
    | (Ok tool_output, s') =>
        (Ok (agent_node,
             {| messages := (messages state
                             ++ [ToolMessage tool_output (tc_id first)])%list |}),
         {| store := s'; log := (log w ++ [ToolExec first])%list |})
    | (Raise e, s') =>
        (Raise e, {| store := s'; log := (log w ++ [ToolExec first])%list |})
    end.
Proof.
  intro Hlast.
  unfold step, call_tool, invoke_tool, bind, ret, lift. rewrite Hlast. simpl.
  now destruct (tool_executor_invoke first (store w)) as [[tool_output|e] s'].
Qed.

Lemma run_END (limit : nat) (state : AgentState) (w : World) :
  run limit END state w = (Finished state, w).
Proof. now destruct limit. Qed.

Lemma run_S (limit : nat) (n : Node) (state : AgentState) (w : World) :
  n <> END ->
  run (S limit) n state w
  = match step n state w with
    | (Ok (n', state'), w') => run limit n' state' w'
    | (Raise e, w') => (Failed e, w')
    end.
Proof. destruct n; [reflexivity | reflexivity | congruence]. Qed.

(** The node ["action"] raises on any other transcript, before any call. *)
Lemma step_action_nothing_pending (state : AgentState) (w : World) :
  pending action_node state = [] ->
  exists e, step action_node state w = (Raise e, w).
Proof.
  unfold pending, step, call_tool, bind, lift.
  destruct (last_item (messages state)) as [[c|c [|first rest]|c i]|e]; simpl;
    intro H; try discriminate; eauto.
Qed.

(** In a run that finishes, the tools executed are, in this order, the
    request still pending at the start and the first requests of the
    assistant turns added to the transcript. *)
Lemma finished_run_executes_first_requests (limit : nat) (n : Node)
  (state : AgentState) (w : World) (final : AgentState) (w' : World) :
  run limit n state w = (Finished final, w') ->
  exists added new,
    messages final = (messages state ++ added)%list
    /\ log w' = (log w ++ new)%list
    /\ executed new = (pending n state ++ first_requests added)%list.
Proof.
  revert n state w. induction limit as [|limit IH]; intros n state w Hrun.
  - destruct n; simpl in Hrun; try discriminate.
    inversion Hrun; subst. exists [], []. now rewrite !app_nil_r.
  - destruct n.
    + rewrite run_S, step_agent in Hrun by discriminate.
      destruct (model_with_tools_invoke (messages state))
        as [[content requested]|e]; [|discriminate].
      apply IH in Hrun. destruct Hrun as (added & new & Hmsgs & Hlog & Hexec).
      simpl in Hmsgs, Hlog.
      exists (AIMessage content requested :: added),
             (ModelCall (messages state) :: new).
      rewrite Hmsgs, Hlog, <- !app_assoc. repeat split.
      simpl. rewrite Hexec.
      destruct requested as [|first rest]; simpl; [reflexivity|].
      now rewrite last_item_app.
    + rewrite run_S in Hrun by discriminate.
      destruct (last_item (messages state))
        as [[c|c [|first rest]|c i]|e] eqn:Hlast;
        try (destruct (step_action_nothing_pending state w) as [e' He'];
             [unfold pending; now rewrite Hlast
             | rewrite He' in Hrun; discriminate]).
      rewrite (step_action state w c first rest Hlast) in Hrun.
      destruct (tool_executor_invoke first (store w)) as [[tool_output|e] s'];
        [|discriminate].
      apply IH in Hrun. destruct Hrun as (added & new & Hmsgs & Hlog & Hexec).
      simpl in Hmsgs, Hlog, Hexec.
      exists (ToolMessage tool_output (tc_id first) :: added),
             (ToolExec first :: new).
      rewrite Hmsgs, Hlog, <- !app_assoc. repeat split.
      simpl. now rewrite Hexec, Hlast.
    + rewrite run_END in Hrun. inversion Hrun; subst.
      exists [], []. now rewrite !app_nil_r.
Qed.

(** C1.  In an execute-tool cycle entered after an assistant turn with
    the requests [first :: rest], the one remote call made is the execution
    of [first]; when it returns, exactly one message is appended to the
    transcript, the tool result tagged with the id of [first], and the
    graph goes back to the model.  The requests in [rest] are never
    executed: over a whole run that finishes, the tools executed are
    exactly the first requests of the assistant turns, one for each turn
    that carries requests. *)
Theorem execute_tool_runs_first_request_only :
  (forall (state : AgentState) (w : World) (content : string)
     (first : ToolCall) (rest : list ToolCall),
      last_item (messages state) = Ok (AIMessage content (first :: rest)) ->
      log (snd (step action_node state w)) = (log w ++ [ToolExec first])%list
      /\ match tool_executor_invoke first (store w) with
         | (Ok tool_output, s') =>
             step action_node state w
             = (Ok (agent_node,
                    {| messages :=
                         (messages state
                          ++ [ToolMessage tool_output (tc_id first)])%list |}),
                {| store := s'; log := (log w ++ [ToolExec first])%list |})
         | (Raise e, _) => fst (step action_node state w) = Raise e
         end)
  /\ (forall (limit : nat) (user_message : string) (w : World)
        (final : AgentState) (w' : World),
        invoke limit user_message w = (Finished final, w') ->
        exists added new,
          messages final = (HumanMessage user_message :: added)%list
          /\ log w' = (log w ++ new)%list
          /\ executed new = first_requests added).
Proof.
  split.
  - intros state w content first rest Hlast.
    rewrite (step_action state w content first rest Hlast).
    now destruct (tool_executor_invoke first (store w)) as [[tool_output|e] s'].
  - intros limit user_message w final w' Hrun.
    apply finished_run_executes_first_requests in Hrun.
    destruct Hrun as (added & new & Hmsgs & Hlog & Hexec).
    exists added, new. auto.
Qed.

(** C2.  After an assistant turn without a tool request the graph goes to
    [END], where a run stops without a further call.  So a run in which
    the model answers directly ends after exactly one call of the model
    and no tool execution, and a run in which the model first requests one
    tool, and answers once the result is in the transcript, ends after
    exactly two calls of the model. *)
Theorem turn_without_request_ends_run :
  (forall (state : AgentState) (w : World) (answer : string),
      model_with_tools_invoke (messages state) = Ok (answer, []) ->
      step agent_node state w
      = (Ok (END, {| messages := (messages state
                                  ++ [AIMessage answer []])%list |}),
         {| store := store w;
            log := (log w ++ [ModelCall (messages state)])%list |})
      /\ forall limit state' w', run limit END state' w' = (Finished state', w'))
  /\ (forall (user_message : string) (w : World) (answer : string) (limit : nat),
        model_with_tools_invoke [HumanMessage user_message] = Ok (answer, []) ->
        invoke (S limit) user_message w
        = (Finished {| messages := [HumanMessage user_message;
                                    AIMessage answer []] |},
           {| store := store w;
              log := (log w
                      ++ [ModelCall [HumanMessage user_message]])%list |})
        /\ model_calls (log (snd (invoke (S limit) user_message w)))
           = model_calls (log w) + 1
        /\ tool_execs (log (snd (invoke (S limit) user_message w)))
           = tool_execs (log w))
  /\ (forall (user_message : string) (w : World) (request : ToolCall)
        (content tool_output answer : string) (s' : Store) (limit : nat),
        model_with_tools_invoke [HumanMessage user_message]
        = Ok (content, [request]) ->
        tool_executor_invoke request (store w) = (Ok tool_output, s') ->
        model_with_tools_invoke
          [HumanMessage user_message; AIMessage content [request];
           ToolMessage tool_output (tc_id request)]
        = Ok (answer, []) ->
        invoke (3 + limit) user_message w
        = (Finished {| messages :=
                         [HumanMessage user_message;
                          AIMessage content [request];
                          ToolMessage tool_output (tc_id request);
                          AIMessage answer []] |},
           {| store := s';
              log := (log w
                      ++ [ModelCall [HumanMessage user_message];
                          ToolExec request;
                          ModelCall
                            [HumanMessage user_message;
                             AIMessage content [request];
                             ToolMessage tool_output (tc_id request)]])%list |})
        /\ model_calls (log (snd (invoke (3 + limit) user_message w)))
           = model_calls (log w) + 2).
Proof.
  split; [|split].
  - intros state w answer Hmodel. split.
    + rewrite step_agent, Hmodel. reflexivity.
    + intros. apply run_END.
  - intros user_message w answer limit Hmodel.
    assert (invoke (S limit) user_message w
            = (Finished {| messages := [HumanMessage user_message;
                                        AIMessage answer []] |},
               {| store := store w;
                  log := (log w
                          ++ [ModelCall [HumanMessage user_message]])%list |}))
      as Hrun.
    { unfold invoke. rewrite run_S by discriminate.
      rewrite step_agent. simpl messages. rewrite Hmodel. simpl.
      apply run_END. }
    rewrite Hrun. split; [reflexivity | split; count_calls].
  - intros user_message w request content tool_output answer s' limit
      Hfirst Htool Hsecond.
    assert (invoke (3 + limit) user_message w
            = (Finished {| messages :=
                             [HumanMessage user_message;
                              AIMessage content [request];
                              ToolMessage tool_output (tc_id request);
                              AIMessage answer []] |},
               {| store := s';
                  log := (log w
                          ++ [ModelCall [HumanMessage user_message];
                              ToolExec request;
                              ModelCall
                                [HumanMessage user_message;
                                 AIMessage content [request];
                                 ToolMessage tool_output
                                   (tc_id request)]])%list |}))
      as Hrun.
    { unfold invoke. change (3 + limit) with (S (S (S limit))).
      rewrite run_S by discriminate.
      rewrite step_agent. simpl messages. rewrite Hfirst.
      rewrite run_S by discriminate.
      rewrite (step_action _ _ content request []) by reflexivity.
      simpl store. rewrite Htool.
      rewrite run_S by discriminate.
      rewrite step_agent. simpl messages. simpl app at 1. rewrite Hsecond.
      rewrite run_END. simpl. now rewrite <- !app_assoc. }
    rewrite Hrun. split; [reflexivity | count_calls].
Qed.

Lemma model_calls_cons_model (t : list BaseMessage) (l : list Call) :
  model_calls (ModelCall t :: l) = S (model_calls l)
  /\ tool_execs (ModelCall t :: l) = tool_execs l.
Proof. split; reflexivity. Qed.

Lemma model_calls_cons_tool (a : ToolCall) (l : list Call) :
  model_calls (ToolExec a :: l) = model_calls l
  /\ tool_execs (ToolExec a :: l) = S (tool_execs l).
Proof. split; reflexivity. Qed.

Lemma finished_run_shape (limit : nat) :
  forall (state : AgentState) (w : World) (final : AgentState) (w' : World),
    (run limit agent_node state w = (Finished final, w') ->
     exists cycles answer new,
       messages final
       = (messages state ++ flat_map cycle_messages cycles
          ++ [AIMessage answer []])%list
       /\ log w' = (log w ++ new)%list
       /\ model_calls new = S (length cycles)
       /\ tool_execs new = length cycles)
    /\ (forall content first rest,
          last_item (messages state) = Ok (AIMessage content (first :: rest)) ->
          run limit action_node state w = (Finished final, w') ->
          exists tool_output cycles answer new,
            messages final
            = (messages state
               ++ ToolMessage tool_output (tc_id first)
                  :: flat_map cycle_messages cycles
               ++ [AIMessage answer []])%list
            /\ log w' = (log w ++ new)%list
            /\ model_calls new = S (length cycles)
            /\ tool_execs new = S (length cycles)).
Proof.
  induction limit as [|limit IH]; intros state w final w'.
  - split; [discriminate | intros; discriminate].
  - split.
    + intro Hrun. rewrite run_S, step_agent in Hrun by discriminate.
      destruct (model_with_tools_invoke (messages state))
        as [[content [|first rest]]|e]; [| |discriminate].
      * rewrite run_END in Hrun. inversion Hrun; subst. simpl.
        exists [], content, [ModelCall (messages state)]. auto.
      * apply (proj2 (IH _ _ _ _) content first rest) in Hrun;
          [|apply last_item_app].
        destruct Hrun as (out & cycles & answer & new & Hm & Hl & Hc & Ht).
        simpl in Hm, Hl.
        exists ({| turn_content := content; turn_first := first;
                   turn_rest := rest; tool_result := out |} :: cycles),
               answer, (ModelCall (messages state) :: new).
        rewrite Hm, Hl, <- !app_assoc. simpl.
        destruct (model_calls_cons_model (messages state) new) as [-> ->].
        rewrite Hc, Ht. auto.
    + intros content first rest Hlast Hrun.
      rewrite run_S, (step_action state w content first rest Hlast) in Hrun
        by discriminate.
      destruct (tool_executor_invoke first (store w)) as [[out|e] s'];
        [|discriminate].
      apply (proj1 (IH _ _ _ _)) in Hrun.
      destruct Hrun as (cycles & answer & new & Hm & Hl & Hc & Ht).
      simpl in Hm, Hl.
      exists out, cycles, answer, (ToolExec first :: new).
      rewrite Hm, Hl, <- !app_assoc. simpl.
      destruct (model_calls_cons_tool first new) as [-> ->].
      rewrite Hc, Ht. auto.
Qed.






(** A run ends only on an assistant turn without a tool request. *)
Lemma finished_run_ends_with_answer (limit : nat) (n : Node)
  (state : AgentState) (w : World) (final : AgentState) (w' : World) :
  n <> END ->
  run limit n state w = (Finished final, w') ->
  exists answer, last_item (messages final) = Ok (AIMessage answer []).
Proof.
  revert n state w. induction limit as [|limit IH]; intros n state w Hn Hrun.
  - destruct n; simpl in Hrun; try discriminate. congruence.
  - rewrite run_S in Hrun by exact Hn. destruct n; [| |congruence].
    + rewrite step_agent in Hrun.
      destruct (model_with_tools_invoke (messages state))
        as [[content [|first rest]]|e]; [| |discriminate].
      * rewrite run_END in Hrun. inversion Hrun; subst. simpl.
        exists content. apply last_item_app.
      * apply IH in Hrun; [exact Hrun | discriminate].
    + destruct (step action_node state w) as [[[n' state']|e] w1] eqn:Hstep;
        [|discriminate].
      assert (n' = agent_node) as ->.
      { unfold step, bind, ret in Hstep.
        destruct (call_tool state w) as [[update|e] w2]; congruence. }
      apply IH in Hrun; [exact Hrun | discriminate].
Qed.


End Graph.

Lemma execute_tool_runs_first_request_only_witness :
  (log (snd (@step direct_model registry_executor action_node
               {| messages := [HumanMessage "what is on?";
                               AIMessage "" [library_call; second_call]] |}
               fresh_world))
   = [ToolExec library_call]
   /\ @step direct_model registry_executor action_node
        {| messages := [HumanMessage "what is on?";
                        AIMessage "" [library_call; second_call]] |}
        fresh_world
      = (Ok (agent_node,
             {| messages := [HumanMessage "what is on?";
                             AIMessage "" [library_call; second_call];
                             ToolMessage get_library_hours "call_1"] |}),
         {| store := mock_db; log := [ToolExec library_call] |}))
  /\ exists added new,
       [HumanMessage "what are library hours?"; AIMessage "" [library_call];
        ToolMessage get_library_hours "call_1";
        AIMessage "The library is open from 9:00 AM." []]
       = (HumanMessage "what are library hours?" :: added)%list
       /\ log (snd (@invoke library_model registry_executor 3
                      "what are library hours?" fresh_world))
          = (log fresh_world ++ new)%list
       /\ executed new = first_requests added.
Proof.
  destruct (@execute_tool_runs_first_request_only direct_model
              registry_executor) as [Hcycle _].
  destruct (@execute_tool_runs_first_request_only library_model
              registry_executor) as [_ Hrun].
  split.
  - exact (Hcycle {| messages := [HumanMessage "what is on?";
                                  AIMessage "" [library_call; second_call]] |}
             fresh_world "" library_call [second_call] eq_refl).
  - exact (Hrun 3 "what are library hours?" fresh_world _ _ eq_refl).
Defined.

Lemma turn_without_request_ends_run_witness :
  model_calls
    (log (snd (@invoke direct_model registry_executor 1
                 "what are library hours?" fresh_world))) = 1
  /\ model_calls
       (log (snd (@invoke library_model registry_executor 3
                    "what are library hours?" fresh_world))) = 2.
Proof.
  split.
  - destruct (@turn_without_request_ends_run direct_model registry_executor)
      as (_ & Hdirect & _).
    destruct (Hdirect "what are library hours?" fresh_world
                "The library is open from 9:00 AM." 0 eq_refl)
      as (_ & Hcalls & _).
    exact Hcalls.
  - destruct (@turn_without_request_ends_run library_model registry_executor)
      as (_ & _ & Htool).
    destruct (Htool "what are library hours?" fresh_world library_call ""
                get_library_hours "The library is open from 9:00 AM." mock_db 0
                eq_refl eq_refl eq_refl)
      as (_ & Hcalls).
    exact Hcalls.
Defined.

(** ** The tool node *)

Lemma dict_get_none {V : Type} (k : string) (d : list (string * V)) :
  ~ In k (map fst d) -> dict_get k d = None.
Proof.
  unfold dict_get. induction d as [|[k' v] d IH]; simpl; intro Hnin;
    [reflexivity|].
  destruct (String.eqb k' k) eqn:E.
  - apply String.eqb_eq in E. tauto.
  - apply IH. tauto.
Qed.

(** The thirteen registered names, whatever the store rules, the random
    source and the order of the groups. *)
Lemma registered_names {rules : PathRules} {rng : Random}
  {order : GroupOrder} :
  map fst tools
  = ["list_students"; "get_student"; "add_student"; "update_student";
     "delete_student"; "get_total_students"; "get_students_by_department";
     "get_recent_onboarded_students"; "get_active_students_last_7_days";
     "get_cafeteria_timings"; "get_library_hours"; "get_event_schedule";
     "send_email"].
Proof. reflexivity. Qed.


(** ** Requests for tools that are not registered *)



(** ** The cap on the cycles *)



(** ** [backend/main.py]: the streaming gateway *)

Lemma terminal_markers_app (fs gs : list string) :
  terminal_markers (fs ++ gs)%list = terminal_markers fs + terminal_markers gs.
Proof. unfold terminal_markers. now rewrite filter_app, length_app. Qed.

(** A token frame or a tool-output frame is not the terminal marker, and
    the terminal marker is yielded for the event [on_end] and no other. *)
Lemma frames_of_markers (e : Event) (fs : list string) :
  frames_of e = Ok fs ->
  terminal_markers fs = if is_on_end e then 1 else 0.
Proof.
  unfold frames_of, is_on_end.
  destruct (String.eqb (event e) "on_chat_model_stream") eqn:Estream.
  { apply String.eqb_eq in Estream. rewrite Estream. simpl.
    destruct (data e) as [[|c token]| |]; intro H; inversion H; reflexivity. }
  destruct (String.eqb (event e) "on_tool_end") eqn:Etool.
  { apply String.eqb_eq in Etool. rewrite Etool. simpl.
    destruct (data e); intro H; inversion H; reflexivity. }
  destruct (String.eqb (event e) "on_end"); intro H; inversion H; reflexivity.
Qed.

Lemma relay_markers (es : list Event) :
  terminal_markers (fst (relay es)) <= on_end_events es
  /\ (snd (relay es) = None ->
      terminal_markers (fst (relay es)) = on_end_events es).
Proof.
  induction es as [|e es [IHle IHeq]]; simpl; [split; auto|].
  unfold on_end_events in *. simpl.
  destruct (frames_of e) as [fs|x] eqn:Hfs; simpl.
  - destruct (relay es) as [rest r]. simpl in *.
    rewrite terminal_markers_app, (frames_of_markers e fs Hfs).
    destruct (is_on_end e); simpl; split; try lia; intro Hr;
      specialize (IHeq Hr); lia.
  - split; [unfold terminal_markers; simpl; lia | discriminate].
Qed.

(** A run that completes and delivers its one [on_end] event last gets
    exactly one terminal marker, as the last frame. *)
Lemma completed_run_ends_with_marker (es : list Event) (d : EventData)
  (frames : list string) :
  relay es = (frames, None) ->
  on_end_events es = 0 ->
  event_generator {| events := (es ++ [{| event := "on_end"; data := d |}])%list;
                     failure := None |}
  = ((frames ++ [DONE])%list, None)
  /\ terminal_markers (frames ++ [DONE])%list = 1.
Proof.
  intros Hrelay Hnone.
  assert (forall es' fs, relay es' = (fs, None) ->
            relay (es' ++ [{| event := "on_end"; data := d |}])%list
            = ((fs ++ [DONE])%list, None)) as Happ.
  { induction es' as [|e es' IH]; simpl; intros fs H.
    - inversion H. reflexivity.
    - destruct (frames_of e) as [fs0|x]; [|discriminate].
      destruct (relay es') as [rest r]. inversion H; subst.
      rewrite (IH rest eq_refl). now rewrite app_assoc. }
  split.
  - unfold event_generator. simpl. now rewrite (Happ es frames Hrelay).
  - destruct (relay_markers es) as [_ Heq]. rewrite Hrelay in Heq.
    simpl in Heq. rewrite terminal_markers_app, (Heq eq_refl), Hnone. reflexivity.
Qed.

(** C4 on failing runs.  When the agent run fails before an [on_end]
    event, the gateway has relayed the frames of the events delivered so
    far, no terminal marker is among them, and the exception leaves the
    generator: the channel gets no terminal frame. *)
Theorem failed_stream_has_no_terminal_marker (es : list Event) (x : Exn) :
  on_end_events es = 0 ->
  fst (event_generator {| events := es; failure := Some x |}) = fst (relay es)
  /\ terminal_markers
       (fst (event_generator {| events := es; failure := Some x |})) = 0
  /\ snd (event_generator {| events := es; failure := Some x |}) <> None.
Proof.
  intro Hnone. unfold event_generator. simpl.
  destruct (relay_markers es) as [Hle _].
  destruct (relay es) as [frames [y|]]; simpl in *;
    repeat split; try lia; discriminate.
Qed.

(** The model's connection breaks after one token: the token frame is on
    the channel and nothing follows. *)
Lemma failed_stream_has_no_terminal_marker_witness :
  event_generator
    {| events := [{| event := "on_chat_model_stream"; data := chunk "Hi" |}];
       failure := Some connection_error |}
  = ([sse (JObj [("token", JStr "Hi")])], Some connection_error)
  /\ terminal_markers
       (fst (event_generator
               {| events := [{| event := "on_chat_model_stream";
                                data := chunk "Hi" |}];
                  failure := Some connection_error |})) = 0.
Proof.
  split; [reflexivity|].
  exact (proj1 (proj2 (failed_stream_has_no_terminal_marker
                         [{| event := "on_chat_model_stream";
                             data := chunk "Hi" |}]
                         connection_error eq_refl))).
Defined.

(** ** [backend/main.py]: [POST /students] *)

(** The success string of [add_student] is no JSON text. *)
Lemma loads_success_string {decoder : Decoder} (rest : string) :
  loads ("Success: Student " ++ rest) = Raise JSONDecodeError.
Proof. reflexivity. Qed.

(** What [POST /students] answers: 400 when [add_student] reports an
    error, 500 when it has added the record. *)
Lemma add_new_student_status {decoder : Decoder} (data : list (string * Value))
  (s : Store) :
  status_code (fst (add_new_student data s))
  = match s with
    | None => 400
    | Some c =>
        match find_one "id" (get "name" data) c with
        | Some _ => 400
        | None => 500
        end
    end.
Proof.
  unfold add_new_student, add_student.
  destruct s as [c|]; [|reflexivity].
  destruct (find_one "id" (get "name" data) c); reflexivity.
Qed.

Lemma add_new_student_never_201 {decoder : Decoder}
  (data : list (string * Value)) (s : Store) :
  status_code (fst (add_new_student data s)) <> 201.
Proof.
  rewrite add_new_student_status.
  destruct s as [c|]; [|discriminate].
  destruct (find_one "id" (get "name" data) c); discriminate.
Qed.

(** C9 on successful creates.  Whenever [add_student] adds the record,
    [POST /students] answers 500 with the decoder's message, not 201 with
    the record; the record is stored all the same, with the request's
    name, department, year and email in the places of id, name, department
    and email. *)
Theorem add_new_student_answers_500_on_success {decoder : Decoder}
  (data : list (string * Value)) (c : Collection) :
  find_one "id" (get "name" data) c = None ->
  add_new_student data (Some c)
  = ({| status_code := 500;
        content :=
          JObj [("error", JStr "Expecting value: line 1 column 1 (char 0)")] |},
     Some (insert_one
             (student (get "name" data) (get "department" data)
                (get "year" data) (get "email" data)) c)).
Proof.
  intro Hfresh. unfold add_new_student, add_student. rewrite Hfresh.
  reflexivity.
Qed.

(** A well-formed create request on an empty collection. *)
Lemma add_new_student_answers_500_on_success_witness :
  @add_new_student null_decoder
    [("name", VStr "Omar"); ("department", VStr "Data Science");
     ("year", VInt 2023); ("email", VStr "omar@x.edu")]
    (Some [])
  = ({| status_code := 500;
        content :=
          JObj [("error", JStr "Expecting value: line 1 column 1 (char 0)")] |},
     Some [{| _id := 1;
              fields := [("id", VStr "Omar"); ("name", VStr "Data Science");
                         ("department", VInt 2023);
                         ("email", VStr "omar@x.edu")] |}]).
Proof.
  exact (@add_new_student_answers_500_on_success null_decoder
           [("name", VStr "Omar"); ("department", VStr "Data Science");
            ("year", VInt 2023); ("email", VStr "omar@x.edu")]
           [] eq_refl).
Defined.

(* ================================================================== *)
(** * Further properties of the code *)
(* ================================================================== *)

(** ** The collection *)

Lemma find_all_false {A : Type} (p : A -> bool) (l : list A) :
  (forall x, In x l -> p x = false) -> find p l = None.
Proof.
  induction l as [|x l IH]; simpl; intro Hall; [reflexivity|].
  rewrite (Hall x) by now left. apply IH. intros y Hy. apply Hall. now right.
Qed.

Lemma find_app_some {A : Type} (p : A -> bool) (l l' : list A) (x : A) :
  find p l = Some x -> find p (l ++ l')%list = Some x.
Proof.
  induction l as [|y l IH]; simpl; [discriminate|].
  destruct (p y); [auto | exact IH].
Qed.

Lemma find_skip {A : Type} (p : A -> bool) (l l' : list A) (x : A) :
  p x = false -> find p (l ++ x :: l')%list = find p (l ++ l')%list.
Proof.
  intro Hx. induction l as [|y l IH]; simpl; [now rewrite Hx|].
  destruct (p y); [reflexivity | exact IH].
Qed.

Lemma matches_true (k : string) (q : Value) (d : Document) :
  matches k q d = true <-> field_value k d = q.
Proof. unfold matches. apply Value_eqb_eq. Qed.

Lemma matches_other (k : string) (q q' : Value) (d : Document) :
  matches k q d = true -> q' <> q -> matches k q' d = false.
Proof.
  intros Hm Hne. apply matches_true in Hm.
  destruct (matches k q' d) eqn:E; [|reflexivity].
  apply matches_true in E. congruence.
Qed.

(** A delete that matches removes the first match and nothing else. *)
Lemma delete_one_match (k : string) (q : Value) (c : Collection)
  (d : Document) :
  find_one k q c = Some d ->
  exists before after,
    c = (before ++ d :: after)%list
    /\ find_one k q before = None
    /\ delete_one k q c = (1, (before ++ after)%list).
Proof.
  unfold find_one. induction c as [|x c IH]; simpl; [discriminate|].
  destruct (matches k q x) eqn:Hm.
  - intro E. inversion E; subst. exists [], c. simpl. auto.
  - intro E. destruct (IH E) as (before & after & Hc & Hnone & Hdel).
    exists (x :: before), after. simpl. rewrite Hm, Hdel, Hc. auto.
Qed.

Lemma delete_one_last (k : string) (q : Value) (c : Collection)
  (d : Document) :
  find_one k q c = None -> matches k q d = true ->
  delete_one k q (c ++ [d])%list = (1, c).
Proof.
  unfold find_one. induction c as [|x c IH]; simpl; intros Hnone Hd.
  - now rewrite Hd.
  - destruct (matches k q x); [discriminate|]. now rewrite (IH Hnone Hd).
Qed.

Lemma find_one_unique_after (c before after : Collection) (id : Value)
  (d : Document) :
  unique_ids c ->
  c = (before ++ d :: after)%list ->
  matches "id" id d = true ->
  find_one "id" id (before ++ after)%list = None.
Proof.
  unfold unique_ids. intros Hnd -> Hd. apply matches_true in Hd.
  rewrite map_app in Hnd. simpl in Hnd. apply NoDup_remove_2 in Hnd.
  apply find_all_false. intros x Hx.
  destruct (matches "id" id x) eqn:E; [|reflexivity].
  apply matches_true in E. exfalso. apply Hnd.
  rewrite <- map_app, Hd, <- E. now apply in_map.
Qed.

(** ** [backend/tools.py]: deleting *)

(** X1.  [delete_student] with an id that is there returns the success
    string and removes the first record with that id and no other: the
    records before and after it stay, in their order, and the count goes
    down by one. *)
Theorem delete_student_removes_first_match (c : Collection) (id : Value)
  (d : Document) :
  find_one "id" id c = Some d ->
  exists before after,
    c = (before ++ d :: after)%list
    /\ find_one "id" id before = None
    /\ delete_student id (Some c)
       = ("Success: Student with ID " ++ str id ++ " has been deleted.",
          Some (before ++ after)%list)
    /\ count_documents c = S (count_documents (before ++ after)%list).
Proof.
  intro Hfound.
  destruct (delete_one_match "id" id c d Hfound)
    as (before & after & Hc & Hnone & Hdel).
  exists before, after. repeat split; try assumption.
  - unfold delete_student. now rewrite Hdel.
  - rewrite Hc. unfold count_documents. rewrite !length_app. simpl. lia.
Qed.

Lemma delete_student_removes_first_match_witness :
  exists before after,
    insert_many mock_students []
    = (before ++
       {| _id := 3;
          fields := student (VStr "23-1003") (VStr "Fatima Rehman")
                      (VStr "Data Science") (VStr "fatima@saylani.edu") |}
       :: after)%list
    /\ fst (delete_student (VStr "23-1003") mock_db)
       = "Success: Student with ID 23-1003 has been deleted."
    /\ get_total_students (snd (delete_student (VStr "23-1003") mock_db))
       = "4".
Proof.
  destruct (delete_student_removes_first_match
              (insert_many mock_students []) (VStr "23-1003")
              {| _id := 3;
                 fields := student (VStr "23-1003") (VStr "Fatima Rehman")
                             (VStr "Data Science")
                             (VStr "fatima@saylani.edu") |}
              eq_refl)
    as (before & after & Hc & _ & Hdel & _).
  exists before, after. split; [exact Hc|]. split; reflexivity.
Defined.

(** X2.  Adding a student under a fresh id and deleting that id again
    gives back the collection as it was, record for record. *)
Theorem add_student_then_delete_student
  (c : Collection) (id name department email : Value) :
  find_one "id" id c = None ->
  delete_student id (snd (add_student id name department email (Some c)))
  = ("Success: Student with ID " ++ str id ++ " has been deleted.", Some c).
Proof.
  intro Hfresh. unfold add_student. rewrite Hfresh. simpl.
  unfold delete_student, insert_one.
  rewrite (delete_one_last "id" id c _ Hfresh (student_id _ _ _ _ _)).
  reflexivity.
Qed.

Lemma add_student_then_delete_student_witness :
  delete_student (VStr "23-9999")
    (snd (add_student (VStr "23-9999") (VStr "Omar") (VStr "Data Science")
            (VStr "omar@x.edu") mock_db))
  = ("Success: Student with ID 23-9999 has been deleted.", mock_db).
Proof.
  exact (add_student_then_delete_student (insert_many mock_students [])
           (VStr "23-9999") (VStr "Omar") (VStr "Data Science")
           (VStr "omar@x.edu") eq_refl).
Defined.

(** X3.  When the ids in the collection are pairwise different, a deleted
    student is gone: [get_student] with the id then returns the not-found
    error. *)
Theorem delete_student_then_get_student (c : Collection) (id : Value)
  (d : Document) :
  unique_ids c ->
  find_one "id" id c = Some d ->
  get_student id (snd (delete_student id (Some c)))
  = "Error: No student found with ID " ++ str id ++ ".".
Proof.
  intros Huniq Hfound.
  destruct (delete_one_match "id" id c d Hfound)
    as (before & after & Hc & _ & Hdel).
  unfold delete_student. rewrite Hdel. simpl.
  assert (matches "id" id d = true) as Hd.
  { unfold find_one in Hfound. now apply find_some in Hfound. }
  now rewrite (find_one_unique_after c before after id d Huniq Hc Hd).
Qed.

Lemma mock_db_unique_ids : unique_ids (insert_many mock_students []).
Proof.
  unfold unique_ids. simpl.
  repeat (constructor; [simpl; intuition discriminate|]). constructor.
Qed.

Lemma delete_student_then_get_student_witness :
  get_student (VStr "23-1003") (snd (delete_student (VStr "23-1003") mock_db))
  = "Error: No student found with ID 23-1003.".
Proof.
  exact (delete_student_then_get_student (insert_many mock_students [])
           (VStr "23-1003") _ mock_db_unique_ids eq_refl).
Defined.

(** ** [backend/tools.py]: updating *)

(** X4.  [update_student] with an id that is not there and a plain field
    name returns the not-found error and leaves the collection as it
    was. *)
Theorem update_student_unknown_id `{PathRules} (c : Collection) (id : Value)
  (field : string) (new_value : Value) :
  plain_key field = true ->
  find_one "id" id c = None ->
  update_student id field new_value (Some c)
  = (Ok ("Error: No student found with ID " ++ str id ++ "."), Some c).
Proof.
  intros Hplain Hnone. unfold update_student, update_one.
  now rewrite Hplain, (update_first_no_match _ _ _ _ Hnone).
Qed.

Lemma update_student_unknown_id_witness :
  @update_student strict_paths (VStr "00-0000") "email" (VStr "x@x.edu")
    mock_db
  = (Ok "Error: No student found with ID 00-0000.", mock_db).
Proof.
  exact (@update_student_unknown_id strict_paths
           (insert_many mock_students []) (VStr "00-0000") "email"
           (VStr "x@x.edu") eq_refl eq_refl).
Defined.

Lemma set_field_keeps_id (field : string) (v : Value) (d : Document)
  (q : Value) :
  field <> "id" ->
  matches "id" q (set_field field v d) = matches "id" q d.
Proof.
  intro Hne. unfold matches, field_value, get, set_field. simpl.
  rewrite dict_get_set_other; [reflexivity | congruence].
Qed.

Lemma dict_set_not_empty {V : Type} (k : string) (v : V)
  (d : list (string * V)) :
  dict_set k v d <> [].
Proof.
  destruct d as [|[k' v'] d]; simpl; [discriminate|].
  destruct (String.eqb k' k); discriminate.
Qed.

(** X5.  After [update_student] has set a plain field other than [id] on
    a student that is there, [get_student] with the same id returns the
    record with that field set: the new value in the place of the old one,
    or as a new last member. *)
Theorem update_student_then_get_student `{PathRules} (c : Collection)
  (id : Value) (field : string) (new_value : Value) (d : Document) :
  plain_key field = true ->
  field <> "id" ->
  find_one "id" id c = Some d ->
  get_student id (snd (update_student id field new_value (Some c)))
  = dumps (of_dict (dict_set field new_value (fields d))) (Some 2).
Proof.
  intros Hplain Hne Hfound.
  destruct (update_first_match "id" id (set_field field new_value) c d Hfound)
    as (before & after & Hc & Hnone & Hupd).
  unfold update_student, update_one. rewrite Hplain, Hupd. simpl.
  assert (matches "id" id d = true) as Hd.
  { unfold find_one in Hfound. now apply find_some in Hfound. }
  unfold find_one in *. rewrite (find_app_none _ _ _ Hnone). simpl.
  rewrite (set_field_keeps_id field new_value d id Hne), Hd. simpl.
  destruct (dict_set field new_value (fields d)) eqn:E; [|reflexivity].
  now apply dict_set_not_empty in E.
Qed.

Lemma update_student_then_get_student_witness :
  get_student (VStr "23-1002")
    (snd (@update_student strict_paths (VStr "23-1002") "department"
            (VStr "Data Science") mock_db))
  = dumps (of_dict [("id", VStr "23-1002"); ("name", VStr "Usman Ali");
                    ("department", VStr "Data Science");
                    ("email", VStr "usman@saylani.edu")])
      (Some 2).
Proof.
  apply (@update_student_then_get_student strict_paths
           (insert_many mock_students []) (VStr "23-1002") "department"
           (VStr "Data Science")
           {| _id := 2;
              fields := student (VStr "23-1002") (VStr "Usman Ali")
                          (VStr "Software Engineering")
                          (VStr "usman@saylani.edu") |}).
  - reflexivity.
  - discriminate.
  - reflexivity.
Defined.

(** ** [backend/tools.py]: the ids stay different *)

Lemma find_one_none_not_in (c : Collection) (id : Value) :
  find_one "id" id c = None -> ~ In id (map (field_value "id") c).
Proof.
  unfold find_one. intros Hnone Hin. apply in_map_iff in Hin.
  destruct Hin as (d & Hd & Hin).
  pose proof (find_none _ _ Hnone d Hin) as Hm.
  apply matches_true in Hd. congruence.
Qed.

Lemma update_first_ids (id : Value) (f : Document -> Document)
  (c : Collection) :
  (forall d, field_value "id" (f d) = field_value "id" d) ->
  map (field_value "id") (snd (update_first "id" id f c))
  = map (field_value "id") c.
Proof.
  intro Hkeep. induction c as [|d c IH]; simpl; [reflexivity|].
  destruct (matches "id" id d); simpl; [now rewrite Hkeep|].
  destruct (update_first "id" id f c) as [n c']. simpl in *. now rewrite IH.
Qed.

(** X6.  While the ids of the students are pairwise different they stay
    so under [add_student] and [delete_student], whatever the arguments
    and whether the call succeeds or not, and under [update_student] on a
    plain field other than [id]. *)
Theorem tools_keep_ids_unique `{PathRules} (s : Store)
  (id name department email new_value : Value) (field : string) :
  store_unique_ids s ->
  store_unique_ids (snd (add_student id name department email s))
  /\ store_unique_ids (snd (delete_student id s))
  /\ (plain_key field = true -> field <> "id" ->
      store_unique_ids (snd (update_student id field new_value s))).
Proof.
  destruct s as [c|]; simpl; [|auto]. intro Huniq. repeat split.
  - destruct (find_one "id" id c) eqn:Hfind; simpl; [exact Huniq|].
    unfold unique_ids, insert_one. rewrite map_app. simpl.
    apply NoDup_app; [exact Huniq | repeat constructor; simpl; tauto |].
    intros x Hx [Hx'|[]]. subst x.
    unfold field_value in Hx at 1. simpl in Hx.
    now apply (find_one_none_not_in c id Hfind).
  - destruct (find_one "id" id c) as [d|] eqn:Hfind.
    + destruct (delete_one_match "id" id c d Hfind)
        as (before & after & Hc & _ & Hdel).
      rewrite Hdel. simpl. unfold unique_ids in *. subst c.
      rewrite map_app in *. simpl in Huniq.
      now apply NoDup_remove_1 in Huniq.
    + now rewrite (delete_one_no_match _ _ _ Hfind).
  - intros Hplain Hne. unfold update_one. rewrite Hplain.
    pose proof (update_first_ids id (set_field field new_value) c) as Hids.
    destruct (update_first "id" id (set_field field new_value) c)
      as [n c'] eqn:Hupd.
    simpl in Hids.
    assert (unique_ids c') as Huniq'.
    { unfold unique_ids. rewrite Hids; [exact Huniq|].
      intro d. unfold field_value, get, set_field. simpl.
      rewrite dict_get_set_other; [reflexivity | congruence]. }
    now destruct (n =? 0)%nat.
Qed.

Lemma tools_keep_ids_unique_witness :
  store_unique_ids
    (snd (add_student (VStr "23-9999") (VStr "Omar") (VStr "Data Science")
            (VStr "omar@x.edu") mock_db))
  /\ store_unique_ids (snd (delete_student (VStr "23-1003") mock_db))
  /\ store_unique_ids
       (snd (@update_student strict_paths (VStr "23-1003") "email"
               (VStr "f@x.edu") mock_db)).
Proof.
  destruct (@tools_keep_ids_unique strict_paths mock_db (VStr "23-9999")
              (VStr "Omar") (VStr "Data Science") (VStr "omar@x.edu")
              (VStr "f@x.edu") "email" mock_db_unique_ids)
    as (Hadd & _ & _).
  destruct (@tools_keep_ids_unique strict_paths mock_db (VStr "23-1003")
              (VStr "Omar") (VStr "Data Science") (VStr "omar@x.edu")
              (VStr "f@x.edu") "email" mock_db_unique_ids)
    as (_ & Hdel & Hupd).
  split; [exact Hadd|]. split; [exact Hdel|].
  apply Hupd; [reflexivity | discriminate].
Defined.

(** X7.  [update_student] does not guard the field [id]: setting the id of
    one student to the id of another succeeds, and afterwards two records
    carry that id, so the ids are no longer pairwise different. *)
Theorem update_student_can_duplicate_id `{PathRules} (c : Collection)
  (id other : Value) (d d' : Document) :
  find_one "id" id c = Some d ->
  find_one "id" other c = Some d' ->
  id <> other ->
  fst (update_student id "id" other (Some c))
  = Ok ("Success: Student with ID " ++ str id ++ " updated successfully.")
  /\ ~ store_unique_ids (snd (update_student id "id" other (Some c))).
Proof.
  intros Hfound Hother Hne.
  destruct (update_first_match "id" id (set_field "id" other) c d Hfound)
    as (before & after & Hc & Hnone & Hupd).
  unfold update_student, update_one.
  replace (plain_key "id") with true by reflexivity.
  rewrite Hupd. simpl. split; [reflexivity|].
  unfold unique_ids. rewrite map_app. simpl. intro Hnd.
  apply NoDup_remove_2 in Hnd. apply Hnd. rewrite <- map_app.
  assert (field_value "id" (set_field "id" other d) = other) as ->.
  { unfold field_value, get, set_field. simpl. now rewrite dict_get_set_same. }
  unfold find_one in Hother, Hfound.
  apply find_some in Hother. destruct Hother as [Hin Hm'].
  apply find_some in Hfound. destruct Hfound as [_ Hm].
  apply matches_true in Hm', Hm.
  rewrite <- Hm'. apply in_map. subst c.
  apply in_app_or in Hin. apply in_or_app.
  destruct Hin as [Hin|[Heq|Hin]]; [now left | | now right].
  subst d'. congruence.
Qed.

Lemma update_student_can_duplicate_id_witness :
  fst (@update_student strict_paths (VStr "23-1001") "id" (VStr "23-1002")
         mock_db)
  = Ok "Success: Student with ID 23-1001 updated successfully."
  /\ ~ store_unique_ids
         (snd (@update_student strict_paths (VStr "23-1001") "id"
                 (VStr "23-1002") mock_db)).
Proof.
  apply (@update_student_can_duplicate_id strict_paths
           (insert_many mock_students []) (VStr "23-1001") (VStr "23-1002")
           {| _id := 1;
              fields := student (VStr "23-1001") (VStr "Ayesha Khan")
                          (VStr "Computer Science")
                          (VStr "ayesha@saylani.edu") |}
           {| _id := 2;
              fields := student (VStr "23-1002") (VStr "Usman Ali")
                          (VStr "Software Engineering")
                          (VStr "usman@saylani.edu") |}).
  - reflexivity.
  - reflexivity.
  - discriminate.
Defined.

(** ** [backend/tools.py]: the other students *)

(** X8.  Adding or deleting a student changes nothing for the others:
    [get_student] with any other id returns what it returned before. *)
Theorem other_students_are_untouched (s : Store)
  (id id' name department email : Value) :
  id' <> id ->
  get_student id' (snd (add_student id name department email s))
  = get_student id' s
  /\ get_student id' (snd (delete_student id s)) = get_student id' s.
Proof.
  intro Hne. destruct s as [c|]; [|split; reflexivity]. split.
  - unfold add_student.
    destruct (find_one "id" id c) eqn:Hfind; [reflexivity|]. simpl.
    unfold get_student, find_one, insert_one.
    destruct (find (matches "id" id') c) as [x|] eqn:Hother.
    + now rewrite (find_app_some _ _ _ _ Hother).
    + rewrite (find_app_none _ _ _ Hother). simpl.
      now rewrite (matches_other "id" id id' _ (student_id _ _ _ _ _) Hne).
  - unfold delete_student.
    destruct (find_one "id" id c) as [d|] eqn:Hfind.
    + destruct (delete_one_match "id" id c d Hfind)
        as (before & after & Hc & _ & Hdel).
      rewrite Hdel. simpl. subst c. unfold get_student, find_one.
      unfold find_one in Hfind. apply find_some in Hfind.
      now rewrite (find_skip _ _ _ _
                     (matches_other "id" id id' d (proj2 Hfind) Hne)).
    + now rewrite (delete_one_no_match _ _ _ Hfind).
Qed.

Lemma other_students_are_untouched_witness :
  get_student (VStr "23-1001")
    (snd (add_student (VStr "23-9999") (VStr "Omar") (VStr "Data Science")
            (VStr "omar@x.edu") mock_db))
  = get_student (VStr "23-1001") mock_db
  /\ get_student (VStr "23-1001")
       (snd (delete_student (VStr "23-1003") mock_db))
     = get_student (VStr "23-1001") mock_db.
Proof.
  split.
  - apply (other_students_are_untouched mock_db (VStr "23-9999")
             (VStr "23-1001") (VStr "Omar") (VStr "Data Science")
             (VStr "omar@x.edu")).
    discriminate.
  - apply (other_students_are_untouched mock_db (VStr "23-1003")
             (VStr "23-1001") VNone VNone VNone).
    discriminate.
Defined.

(** ** [backend/tools.py]: the error marker *)

(** The decimal form of a number does not begin like an error. *)
Lemma str_int_not_error (z : Z) : startswith (str_int z) "Error" = false.
Proof. unfold str_int. destruct (Z.to_int z) as [[]|[]]; reflexivity. Qed.

(** X9.  The results of the store-backed tools begin with [Error] exactly
    when the call failed: for the three listings only when the store is
    not connected; for [get_student] also when no record, or only an empty
    one, has the id; for [add_student] also when the id is taken; for
    [delete_student] also when the id is not there.  A JSON text or a
    number is never taken for an error. *)
Theorem error_prefix_marks_failure {order : GroupOrder} (s : Store)
  (id name department email : Value) :
  startswith (list_students s) "Error"
  = match s with None => true | Some _ => false end
  /\ startswith (get_total_students s) "Error"
     = match s with None => true | Some _ => false end
  /\ startswith (get_students_by_department s) "Error"
     = match s with None => true | Some _ => false end
  /\ startswith (get_student id s) "Error"
     = match s with
       | None => true
       | Some c =>
           match find_one "id" id c with
           | Some d => match fields d with [] => true | _ :: _ => false end
           | None => true
           end
       end
  /\ startswith (fst (add_student id name department email s)) "Error"
     = match s with
       | None => true
       | Some c =>
           match find_one "id" id c with Some _ => true | None => false end
       end
  /\ startswith (fst (delete_student id s)) "Error"
     = match s with
       | None => true
       | Some c =>
           match find_one "id" id c with Some _ => false | None => true end
       end.
Proof.
  destruct s as [c|]; [|repeat split]. repeat split.
  - unfold list_students. now destruct c.
  - apply str_int_not_error.
  - unfold get_students_by_department. now destruct (dept_counts c).
  - unfold get_student. destruct (find_one "id" id c) as [d|]; [|reflexivity].
    now destruct (fields d).
  - unfold add_student. now destruct (find_one "id" id c).
  - unfold delete_student.
    destruct (find_one "id" id c) as [d|] eqn:Hfind.
    + destruct (delete_one_match "id" id c d Hfind)
        as (before & after & _ & _ & Hdel).
      now rewrite Hdel.
    + now rewrite (delete_one_no_match _ _ _ Hfind).
Qed.

(** ** [backend/tools.py]: the analytics follow the roster *)

(** Two values are the same dict key when they are the same once a bool
    is read as the number it equals. *)
Lemma py_eqb_key (a b : Value) :
  py_eqb a b
  = Value_eqb
      (match a with VBool x => VInt (if x then 1 else 0) | _ => a end)
      (match b with VBool x => VInt (if x then 1 else 0) | _ => b end).
Proof. destruct a as [| | |[]], b as [| | |[]]; reflexivity. Qed.

Lemma py_eqb_same_key (a b k : Value) :
  py_eqb a k = true -> py_eqb b k = true -> py_eqb a b = true.
Proof.
  rewrite !py_eqb_key. intros Ha Hb.
  apply Value_eqb_eq in Ha, Hb. apply Value_eqb_eq. congruence.
Qed.

Lemma keys_apart_front (l : list Value) (x : Value) :
  keys_apart (l ++ [x]) = true -> keys_apart l = true.
Proof.
  unfold keys_apart. rewrite !forallb_forall. intros Hall a Ha.
  specialize (Hall a (in_or_app _ _ _ (or_introl Ha))).
  rewrite forallb_forall in *. intros b Hb.
  apply Hall, in_or_app. now left.
Qed.

Lemma count_of_bump (k k0 : Value) (groups : list (Value * nat)) :
  (forall a b, In a (map fst (bump k0 groups)) ->
               In b (map fst (bump k0 groups)) ->
               py_eqb a b = true -> a = b) ->
  count_of k (bump k0 groups)
  = (if py_eqb k0 k then 1 else 0) + count_of k groups.
Proof.
  unfold count_of. induction groups as [|[k' n] groups IH]; simpl.
  - intros _. now destruct (py_eqb k0 k).
  - destruct (Value_eqb k' k0) eqn:E0; simpl; intro Hapart.
    + apply Value_eqb_eq in E0. subst k'. now destruct (py_eqb k0 k).
    + destruct (py_eqb k' k) eqn:Ek.
      * destruct (py_eqb k0 k) eqn:E0k; [|reflexivity].
        exfalso.
        assert (k' = k0) as Heq.
        { apply Hapart; [now left | right |
                         exact (py_eqb_same_key _ _ _ Ek E0k)].
          destruct (bump_keys k0 groups) as [[Hin ->]|[_ ->]];
            [exact Hin | apply in_or_app; right; now left]. }
        subst. now rewrite Value_eqb_refl in E0.
      * apply IH. intros a b Ha Hb. apply Hapart; now right.
Qed.

Lemma count_of_permutation (k : Value) (l l' : list (Value * nat)) :
  Permutation l l' ->
  NoDup (map fst l) ->
  (forall a b, In a (map fst l) -> In b (map fst l) ->
               py_eqb a b = true -> a = b) ->
  count_of k l = count_of k l'.
Proof.
  unfold count_of. induction 1 as [|x l l' Hperm IH|x y l|l l' l'' H1 IH1 H2 IH2];
    intros Hnd Hapart.
  - reflexivity.
  - simpl. destruct (py_eqb (fst x) k); [reflexivity|].
    apply IH.
    + now inversion Hnd.
    + intros a b Ha Hb. apply Hapart; now right.
  - simpl. destruct (py_eqb (fst y) k) eqn:Ey, (py_eqb (fst x) k) eqn:Ex;
      try reflexivity.
    exfalso. simpl in Hnd. inversion Hnd as [|? ? Hnotin _]; subst.
    apply Hnotin. left.
    symmetry. apply Hapart; [now left | right; now left |].
    exact (py_eqb_same_key _ _ _ Ey Ex).
  - rewrite IH1 by assumption. apply IH2.
    + exact (Permutation_NoDup (Permutation_map fst H1) Hnd).
    + intros a b Ha Hb. apply Hapart;
        eapply Permutation_in;
        try (apply Permutation_sym, Permutation_map; exact H1); assumption.
Qed.

(** X10.  After a successful [add_student], and as long as Python keeps
    apart the department values that the store keeps apart, the department
    counts behind [get_students_by_department] show one more student in
    the department that was given and the same number in every other,
    whatever the order of the groups, and [get_total_students] is one
    higher. *)
Theorem add_student_shows_in_counts {order : GroupOrder} (c : Collection)
  (id name department email : Value) :
  find_one "id" id c = None ->
  departments_apart (insert_one (student id name department email) c) = true ->
  exists c',
    snd (add_student id name department email (Some c)) = Some c'
    /\ (forall k,
          count_of k (dept_counts c')
          = (if py_eqb department k then 1 else 0)
            + count_of k (dept_counts c))
    /\ count_documents c' = S (count_documents c).
Proof.
  intros Hfresh Hapart. unfold add_student. rewrite Hfresh. simpl.
  eexists. split; [reflexivity|]. split.
  - intro k.
    assert (departments_apart c = true) as Hapart0.
    { unfold departments_apart, insert_one in *. rewrite map_app in Hapart.
      exact (keys_apart_front _ _ Hapart). }
    rewrite (dept_counts_aggregate _ Hapart), (dept_counts_aggregate _ Hapart0).
    unfold aggregate_group_count.
    set (groups := fun docs : Collection =>
                     fold_left
                       (fun g d => bump (field_value "department" d) g)
                       docs []).
    change (count_of k (arrange (groups
                                   (insert_one
                                      (student id name department email) c)))
            = (if py_eqb department k then 1 else 0)
              + count_of k (arrange (groups c))).
    assert (forall docs, NoDup (map fst (groups docs))) as Hnd.
    { intro docs. apply fold_bump_distinct. constructor. }
    assert (forall docs a b,
               departments_apart docs = true ->
               In a (map fst (groups docs)) -> In b (map fst (groups docs)) ->
               py_eqb a b = true -> a = b) as Hkeys.
    { intros docs a b Hdocs Ha Hb.
      apply (keys_apart_spec _ a b Hdocs).
      - apply fold_bump_keys in Ha. now destruct Ha as [[]|Ha].
      - apply fold_bump_keys in Hb. now destruct Hb as [[]|Hb]. }
    assert (forall docs, departments_apart docs = true ->
                         count_of k (arrange (groups docs))
                         = count_of k (groups docs)) as Hany.
    { intros docs Hdocs. symmetry.
      apply count_of_permutation;
        [apply Permutation_sym, arrange_permutes | apply Hnd |].
      intros a b. now apply Hkeys. }
    rewrite (Hany _ Hapart), (Hany _ Hapart0).
    assert (groups (insert_one (student id name department email) c)
            = bump department (groups c)) as Hstep.
    { unfold groups, insert_one. now rewrite fold_left_app. }
    rewrite Hstep. apply count_of_bump. rewrite <- Hstep.
    intros a b. now apply Hkeys.
  - unfold count_documents, insert_one. rewrite length_app. simpl. lia.
Qed.

Lemma add_student_shows_in_counts_witness :
  exists c',
    snd (add_student (VStr "23-9999") (VStr "Omar") (VStr "Data Science")
           (VStr "omar@x.edu") mock_db) = Some c'
    /\ count_of (VStr "Data Science") (@dept_counts first_occurrence c') = 2
    /\ count_of (VStr "Computer Science") (@dept_counts first_occurrence c')
       = 2
    /\ count_documents c' = 6.
Proof.
  destruct (@add_student_shows_in_counts first_occurrence
              (insert_many mock_students [])
              (VStr "23-9999") (VStr "Omar") (VStr "Data Science")
              (VStr "omar@x.edu") eq_refl eq_refl)
    as (c' & Hc' & Hcounts & Htotal).
  exists c'. split; [exact Hc'|]. split; [|split].
  - exact (Hcounts (VStr "Data Science")).
  - exact (Hcounts (VStr "Computer Science")).
  - exact Htotal.
Defined.

(** ** [backend/tools.py]: the recently onboarded students *)

Lemma firstn_incl {A : Type} (n : nat) (l : list A) : incl (firstn n l) l.
Proof.
  intros x Hx. rewrite <- (firstn_skipn n l). apply in_or_app. now left.
Qed.

(** X11.  When [random.shuffle] permutes its list,
    [get_recent_onboarded_students] returns the JSON text of stored
    records only, without their [_id], and of as many as the limit allows:
    the limit itself, or all of them when there are fewer; a negative
    limit does not fail but leaves out that many records. *)
Theorem recent_students_respect_limit `{Random} (c : Collection) (limit : Z) :
  (forall l, Permutation (shuffle l) l) ->
  exists recent,
    get_recent_onboarded_students (Some limit) (Some c)
    = dumps (JArr (map of_dict recent)) (Some 2)
    /\ incl recent (map fields c)
    /\ length recent
       = if (0 <=? limit)%Z
         then Nat.min (Z.to_nat limit) (count_documents c)
         else count_documents c - Z.to_nat (- limit).
Proof.
  intro Hperm.
  exists (slice_to (Some limit) (shuffle (map fields c))).
  split; [reflexivity|].
  pose proof (Permutation_length (Hperm (map fields c))) as Hlen.
  rewrite length_map in Hlen. unfold slice_to, count_documents. split.
  - intros x Hx. apply (Permutation_in x (Hperm (map fields c))).
    destruct (0 <=? limit)%Z; exact (firstn_incl _ _ x Hx).
  - destruct (0 <=? limit)%Z; rewrite length_firstn, Hlen; lia.
Qed.

Lemma recent_students_respect_limit_witness :
  exists recent,
    @get_recent_onboarded_students fixed_random (Some 2%Z) mock_db
    = dumps (JArr (map of_dict recent)) (Some 2)
    /\ incl recent (map fields (insert_many mock_students []))
    /\ length recent = 2.
Proof.
  apply (@recent_students_respect_limit fixed_random
           (insert_many mock_students []) 2%Z).
  intro l. apply Permutation_refl.
Defined.

(** ** [backend/agent.py]: what a run can and cannot do *)

Section Runs.

Context {model : ChatModel} {executor : ToolExecutor}.

Lemma run_failure_source (limit : nat) (n : Node) (state : AgentState)
  (w : World) (e : Exn) (w' : World) :
  run limit n state w = (Failed e, w') ->
  (n = action_node -> pending action_node state <> []) ->
  e = GraphRecursionError
  \/ (exists transcript, model_with_tools_invoke transcript = Raise e)
  \/ (exists action s, fst (tool_executor_invoke action s) = Raise e).
Proof.
  revert n state w. induction limit as [|limit IH]; intros n state w Hrun Hpend.
  - destruct n; simpl in Hrun; inversion Hrun; now left.
  - destruct n.
    + rewrite run_S, step_agent in Hrun by discriminate.
      destruct (model_with_tools_invoke (messages state))
        as [[content requested]|e0] eqn:Hmodel.
      * apply IH in Hrun; [exact Hrun|].
        destruct requested as [|first rest]; [discriminate|].
        intros _. simpl. rewrite last_item_app. discriminate.
      * inversion Hrun; subst. right. left. now exists (messages state).
    + specialize (Hpend eq_refl). unfold pending in Hpend.
      destruct (last_item (messages state))
        as [[c|c [|first rest]|c i]|e0] eqn:Hlast; try congruence.
      rewrite run_S, (step_action state w c first rest Hlast) in Hrun
        by discriminate.
      destruct (tool_executor_invoke first (store w)) as [[out|e0] s']
        eqn:Hexec.
      * apply IH in Hrun; [exact Hrun | discriminate].
      * inversion Hrun; subst. right. right. exists first, (store w).
        now rewrite Hexec.
    + rewrite run_END in Hrun. discriminate.
Qed.

(** X12.  The nodes of the graph raise nothing of their own: the indexing
    [[-1]] and [[0]] and the attribute [tool_calls] cannot fail in a run
    started at the entry point.  A run that fails has failed with an
    exception raised by the model or by the tool executor, or has been
    stopped by the runtime with [GraphRecursionError]. *)
Theorem run_fails_only_in_collaborators (limit : nat) (user_message : string)
  (w : World) (e : Exn) (w' : World) :
  invoke limit user_message w = (Failed e, w') ->
  e = GraphRecursionError
  \/ (exists transcript, model_with_tools_invoke transcript = Raise e)
  \/ (exists action s, fst (tool_executor_invoke action s) = Raise e).
Proof.
  intro Hrun. apply (run_failure_source _ _ _ _ _ _ Hrun). discriminate.
Qed.

(** X13.  The transcript of every finished run is the human message, then
    for each cycle an assistant turn with requests directly followed by
    the tool result tagged with the id of its first request, and last an
    assistant turn without requests.  The run has executed one tool for
    each cycle and called the model once more than that. *)
Theorem finished_run_transcript (limit : nat) (user_message : string)
  (w : World) (final : AgentState) (w' : World) :
  invoke limit user_message w = (Finished final, w') ->
  exists cycles answer,
    messages final
    = (HumanMessage user_message
       :: flat_map cycle_messages cycles ++ [AIMessage answer []])%list
    /\ tool_execs (log w') = tool_execs (log w) + length cycles
    /\ model_calls (log w') = model_calls (log w) + length cycles + 1.
Proof.
  intro Hrun. apply (proj1 (finished_run_shape _ _ _ _ _)) in Hrun.
  destruct Hrun as (cycles & answer & new & Hm & Hl & Hc & Ht).
  exists cycles, answer. rewrite Hm, Hl, model_calls_app, tool_execs_app.
  split; [reflexivity | lia].
Qed.

End Runs.

Lemma run_fails_only_in_collaborators_witness :
  connection_error = GraphRecursionError
  \/ (exists transcript,
         @model_with_tools_invoke failing_model transcript
         = Raise connection_error)
  \/ (exists action s,
         fst (@tool_executor_invoke registry_executor action s)
         = Raise connection_error).
Proof.
  exact (@run_fails_only_in_collaborators failing_model registry_executor 1
           "what are library hours?" fresh_world connection_error _ eq_refl).
Defined.

Lemma finished_run_transcript_witness :
  exists cycles answer,
    [HumanMessage "what are library hours?"; AIMessage "" [library_call];
     ToolMessage get_library_hours "call_1";
     AIMessage "The library is open from 9:00 AM." []]
    = (HumanMessage "what are library hours?"
       :: flat_map cycle_messages cycles ++ [AIMessage answer []])%list
    /\ tool_execs
         (log (snd (@invoke library_model registry_executor 3
                      "what are library hours?" fresh_world)))
       = tool_execs (log fresh_world) + length cycles
    /\ model_calls
         (log (snd (@invoke library_model registry_executor 3
                      "what are library hours?" fresh_world)))
       = model_calls (log fresh_world) + length cycles + 1.
Proof.
  exact (@finished_run_transcript library_model registry_executor 3
           "what are library hours?" fresh_world _ _ eq_refl).
Defined.

(** ** [backend/agent.py]: the registered tools *)

(** X14.  Of the thirteen registered tools only [add_student],
    [update_student] and [delete_student] can change the collection: the
    handler of every other tool returns the store as it was, whatever the
    arguments of the call and whether it accepts them or not. *)
Theorem only_writing_tools_change_store {rules : PathRules} {rng : Random}
  {order : GroupOrder} (name : string) (handler : Handler) (args : list (string * Value))
  (s : Store) :
  In (name, handler) tools ->
  ~ In name writing_tools ->
  snd (handler args s) = s.
Proof.
  intros Hin Hread. unfold tools in Hin. simpl in Hin.
  repeat (destruct Hin as [Heq|Hin];
          [inversion Heq; subst; clear Heq;
           try (exfalso; apply Hread; simpl; tauto);
           unfold reading_tool, pure_tool;
           destruct (accepts _ _ args); simpl; try reflexivity;
           try (destruct (dict_get "limit" args) as [[| | |]|]; reflexivity)
          |]).
  contradiction.
Qed.

Lemma only_writing_tools_change_store_witness :
  snd (pure_tool get_library_hours [("city", VStr "Karachi")] mock_db)
  = mock_db.
Proof.
  apply (@only_writing_tools_change_store strict_paths fixed_random
           first_occurrence "get_library_hours" (pure_tool get_library_hours)).
  - simpl. tauto.
  - simpl. intuition discriminate.
Defined.

(** ** [backend/main.py]: the student endpoints *)

Lemma loads_object {decoder : Decoder} (member : string * json)
  (members : list (string * json)) (indent : option nat) :
  loads (dumps (JObj (member :: members)) indent)
  = decode (dumps (JObj (member :: members)) indent).
Proof. reflexivity. Qed.

(** X15.  [GET /students/{id}] answers 404 with the not-found text when
    no student has the id; when one has, the JSON text of the first such
    record is never taken for an error: it goes to the decoder, and what
    the decoder returns is answered with status 200. *)
Theorem get_student_by_id_answers {decoder : Decoder} (student_id : string)
  (c : Collection) :
  (find_one "id" (VStr student_id) c = None ->
   get_student_by_id student_id (Some c)
   = Ok (error_response 404
           ("Error: No student found with ID " ++ student_id ++ ".")))
  /\ (forall d member members,
        find_one "id" (VStr student_id) c = Some d ->
        fields d = member :: members ->
        get_student_by_id student_id (Some c)
        = match decode (dumps (of_dict (fields d)) (Some 2)) with
          | Ok record => Ok {| status_code := 200; content := record |}
          | Raise e => Raise e
          end).
Proof.
  split.
  - intro Hnone. unfold get_student_by_id, get_student. rewrite Hnone.
    reflexivity.
  - intros d member members Hfound Hfields.
    unfold get_student_by_id, get_student. rewrite Hfound, Hfields.
    reflexivity.
Qed.

Lemma get_student_by_id_answers_witness :
  @get_student_by_id null_decoder "00-0000" mock_db
  = Ok (error_response 404 "Error: No student found with ID 00-0000.")
  /\ @get_student_by_id null_decoder "23-1001" mock_db
     = Ok {| status_code := 200; content := JNull |}.
Proof.
  destruct (@get_student_by_id_answers null_decoder "00-0000"
              (insert_many mock_students [])) as [Hmissing _].
  destruct (@get_student_by_id_answers null_decoder "23-1001"
              (insert_many mock_students [])) as [_ Hfound].
  split.
  - exact (Hmissing eq_refl).
  - exact (Hfound _ _ _ eq_refl eq_refl).
Defined.

(** X16.  [DELETE /students/{id}] answers 404 with the not-found text and
    leaves the collection alone when no student has the id; otherwise it
    answers 200 with the success text and the first record with that id
    is gone, the others staying as they were. *)
Theorem delete_student_record_answers (student_id : string) (c : Collection) :
  (find_one "id" (VStr student_id) c = None ->
   delete_student_record student_id (Some c)
   = (error_response 404
        ("Error: No student found with ID " ++ student_id ++ "."),
      Some c))
  /\ (forall d,
        find_one "id" (VStr student_id) c = Some d ->
        exists before after,
          c = (before ++ d :: after)%list
          /\ find_one "id" (VStr student_id) before = None
          /\ delete_student_record student_id (Some c)
             = ({| status_code := 200;
                   content :=
                     JObj [("message",
                            JStr ("Success: Student with ID " ++ student_id
                                    ++ " has been deleted."))] |},
                Some (before ++ after)%list)).
Proof.
  split.
  - intro Hnone. unfold delete_student_record, delete_student.
    now rewrite (delete_one_no_match _ _ _ Hnone).
  - intros d Hfound.
    destruct (delete_one_match "id" (VStr student_id) c d Hfound)
      as (before & after & Hc & Hnone & Hdel).
    exists before, after. repeat split; try assumption.
    unfold delete_student_record, delete_student. now rewrite Hdel.
Qed.

Lemma delete_student_record_answers_witness :
  delete_student_record "00-0000" mock_db
  = (error_response 404 "Error: No student found with ID 00-0000.", mock_db)
  /\ status_code (fst (delete_student_record "23-1005" mock_db)) = 200.
Proof.
  destruct (delete_student_record_answers "00-0000"
              (insert_many mock_students [])) as [Hmissing _].
  destruct (delete_student_record_answers "23-1005"
              (insert_many mock_students [])) as [_ Hfound].
  split.
  - exact (Hmissing eq_refl).
  - destruct (Hfound _ eq_refl) as (before & after & _ & _ & Hdel).
    change mock_db with (Some (insert_many mock_students [])).
    now rewrite Hdel.
Defined.

(** X17.  [PUT /students/{id}] calls [update_student], a function of three
    parameters, with five positional arguments, and
    [POST /communication/email] calls [send_email], a function of two,
    with three.  Both calls raise inside the [try]: every request is
    answered 500 with the message of the [TypeError], no record is ever
    updated through the endpoint and no e-mail is ever reported sent. *)
Theorem update_and_email_endpoints_always_500
  {rules : PathRules} {decoder : Decoder}
  (student_id : string) (data : list (string * Value)) (s : Store) :
  update_student_info student_id data s
  = (error_response 500
       "update_student() takes 3 positional arguments but 5 were given",
     s)
  /\ send_email_to_student data
     = error_response 500
         "send_email() takes 2 positional arguments but 3 were given".
Proof. split; reflexivity. Qed.

(** X18.  With the store not connected the endpoints still answer as if
    the request were at fault or had worked: [GET /students/{id}] and
    [DELETE /students/{id}] answer 404, [POST /students] answers 400,
    [GET /analytics] answers 200 with the error text in the place of both
    figures, and in [GET /students] and the two analytics listings
    [json.loads] raises on the error text, which nothing catches. *)
Theorem endpoints_without_store {decoder : Decoder} {rng : Random}
  {order : GroupOrder} (student_id : string) (data : list (string * Value)) :
  get_student_by_id student_id None
  = Ok (error_response 404 "Error: Database connection failed.")
  /\ delete_student_record student_id None
     = (error_response 404 "Error: Database connection failed.", None)
  /\ add_new_student data None
     = (error_response 400 "Error: Database connection failed.", None)
  /\ get_analytics None
     = {| status_code := 200;
          content :=
            JObj [("total_students",
                   JStr "Error: Database connection failed.");
                  ("students_by_department",
                   JStr "Error: Database connection failed.")] |}
  /\ get_all_students None = Raise JSONDecodeError
  /\ get_recent_onboarded None = Raise JSONDecodeError
  /\ get_active_students None = Raise JSONDecodeError.
Proof. repeat split. Qed.

(** ** [backend/main.py]: [POST /chat] *)

(** X19.  [POST /chat] answers 400 without calling the model when the
    message is missing or empty.  Otherwise, when the run finishes, it
    answers 200 with the text of the last message, which is an assistant
    turn without tool requests, never a tool result or the user's own
    message; and when the run fails, 500 with the text of the
    exception. *)
Theorem chat_endpoint_answers {model : ChatModel} {executor : ToolExecutor}
  (limit : nat) (w : World) :
  chat_endpoint limit None w
  = (error_response 400 "Message is required.", w)
  /\ chat_endpoint limit (Some "") w
     = (error_response 400 "Message is required.", w)
  /\ (forall text final w',
        text <> "" ->
        invoke limit text w = (Finished final, w') ->
        exists answer,
          last_item (messages final) = Ok (AIMessage answer [])
          /\ chat_endpoint limit (Some text) w
             = ({| status_code := 200;
                   content := JObj [("response", JStr answer)] |},
                w'))
  /\ (forall text e w',
        text <> "" ->
        invoke limit text w = (Failed e, w') ->
        chat_endpoint limit (Some text) w
        = (error_response 500 (exn_msg e), w')).
Proof.
  repeat split.
  - intros text final w' Hne Hrun.
    pose proof Hrun as Hlast. unfold invoke in Hlast.
    apply finished_run_ends_with_answer in Hlast; [|discriminate].
    destruct Hlast as [answer Hlast]. exists answer. split; [exact Hlast|].
    unfold chat_endpoint. destruct text as [|ch text]; [congruence|].
    now rewrite Hrun, Hlast.
  - intros text e w' Hne Hrun.
    unfold chat_endpoint. destruct text as [|ch text]; [congruence|].
    now rewrite Hrun.
Qed.

Lemma chat_endpoint_answers_witness :
  @chat_endpoint library_model registry_executor 3
    (Some "what are library hours?") fresh_world
  = ({| status_code := 200;
        content :=
          JObj [("response", JStr "The library is open from 9:00 AM.")] |},
     snd (@invoke library_model registry_executor 3 "what are library hours?"
            fresh_world))
  /\ fst (@chat_endpoint failing_model registry_executor 3
            (Some "what are library hours?") fresh_world)
     = error_response 500 "Connection error.".
Proof.
  destruct (@chat_endpoint_answers library_model registry_executor 3
              fresh_world) as (_ & _ & Hfinished & _).
  destruct (@chat_endpoint_answers failing_model registry_executor 3
              fresh_world) as (_ & _ & _ & Hfailed).
  split.
  - destruct (Hfinished "what are library hours?" _ _
                ltac:(discriminate) eq_refl) as (answer & Hlast & Hchat).
    rewrite Hchat. simpl in Hlast. inversion Hlast. reflexivity.
  - rewrite (Hfailed "what are library hours?" connection_error _
               ltac:(discriminate) eq_refl).
    reflexivity.
Defined.

(** ** [backend/main.py]: the streaming gateway, continued *)

Lemma frames_of_at_most_one (e : Event) (fs : list string) :
  frames_of e = Ok fs -> length fs <= 1.
Proof.
  unfold frames_of.
  destruct (String.eqb (event e) "on_chat_model_stream").
  { destruct (data e) as [[|c token]| |]; intro H; inversion H; simpl; lia. }
  destruct (String.eqb (event e) "on_tool_end").
  { destruct (data e); intro H; inversion H; simpl; lia. }
  destruct (String.eqb (event e) "on_end"); intro H; inversion H; simpl; lia.
Qed.

Lemma relay_length (es : list Event) : length (fst (relay es)) <= length es.
Proof.
  induction es as [|e es IH]; simpl; [lia|].
  destruct (frames_of e) as [fs|x] eqn:Hfs; simpl; [|lia].
  destruct (relay es) as [rest r]. simpl in *. rewrite length_app.
  pose proof (frames_of_at_most_one e fs Hfs). lia.
Qed.

(** X20.  On a stream that completes, the gateway puts at most one frame
    per event on the channel, and as many terminal markers as the run
    delivered events named [on_end], whatever the tokens and tool outputs
    say: a token that reads like the marker is framed as a token.  A
    completed run that delivers no such event gets no terminal marker. *)
Theorem completed_stream_markers (es : list Event) :
  snd (relay es) = None ->
  event_generator {| events := es; failure := None |} = (fst (relay es), None)
  /\ terminal_markers (fst (relay es)) = on_end_events es
  /\ length (fst (relay es)) <= length es.
Proof.
  intro Hok. repeat split.
  - unfold event_generator. simpl. destruct (relay es) as [frames r].
    simpl in Hok. now subst r.
  - now apply relay_markers.
  - apply relay_length.
Qed.

Lemma completed_stream_markers_witness :
  terminal_markers
    (fst (event_generator
            {| events := [{| event := "on_chat_model_stream";
                             data := chunk "[DONE]" |};
                          {| event := "on_chain_end"; data := no_data |};
                          {| event := "on_end"; data := no_data |}];
               failure := None |})) = 1.
Proof.
  destruct (completed_stream_markers
              [{| event := "on_chat_model_stream"; data := chunk "[DONE]" |};
               {| event := "on_chain_end"; data := no_data |};
               {| event := "on_end"; data := no_data |}] eq_refl)
    as (Hgen & Hmarkers & _).
  rewrite Hgen. exact Hmarkers.
Defined.

(** X21.  The gateway relays in arrival order and never looks ahead: the
    frames for the first events of a stream are the same whatever events
    follow, and once an event cannot be framed nothing after it is
    relayed. *)
Theorem relay_is_incremental (es es' : list Event) :
  relay (es ++ es')%list
  = match relay es with
    | (frames, None) => ((frames ++ fst (relay es'))%list, snd (relay es'))
    | (frames, Some x) => (frames, Some x)
    end.
Proof.
  induction es as [|e es IH]; simpl.
  - now destruct (relay es').
  - destruct (frames_of e) as [fs|x]; [|reflexivity].
    rewrite IH. destruct (relay es) as [frames [x|]]; [reflexivity|].
    now rewrite app_assoc.
Qed.

(** ** [backend/tools.py]: the start-up data *)

(** X22.  [populate_db_with_mock_data], run at every start-up, discards
    whatever the collection held: afterwards there are exactly the five
    mock students, under pairwise different ids, and a student stored
    before under any other id is not found any more. *)
Theorem populate_discards_earlier_students (c : Collection) (id : Value) :
  ~ In id (map (get "id") mock_students) ->
  get_student id (populate_db_with_mock_data (Some c))
  = "Error: No student found with ID " ++ str id ++ "."
  /\ get_total_students (populate_db_with_mock_data (Some c)) = "5"
  /\ store_unique_ids (populate_db_with_mock_data (Some c)).
Proof.
  intro Hother. split; [|split; [reflexivity | exact mock_db_unique_ids]].
  unfold get_student, populate_db_with_mock_data, delete_many, find_one.
  rewrite (find_all_false (matches "id" id) (insert_many mock_students []));
    [reflexivity|].
  intros d Hd. destruct (matches "id" id d) eqn:E; [|reflexivity].
  apply matches_true in E. exfalso. apply Hother. rewrite <- E.
  simpl in Hd. simpl.
  repeat (destruct Hd as [<-|Hd]; [simpl; tauto|]). contradiction.
Qed.

Lemma populate_discards_earlier_students_witness :
  get_student (VStr "23-9999")
    (populate_db_with_mock_data
       (snd (add_student (VStr "23-9999") (VStr "Omar") (VStr "Data Science")
               (VStr "omar@x.edu") mock_db)))
  = "Error: No student found with ID 23-9999.".
Proof.
  apply (populate_discards_earlier_students
           (insert_one (student (VStr "23-9999") (VStr "Omar")
                          (VStr "Data Science") (VStr "omar@x.edu"))
              (insert_many mock_students []))
           (VStr "23-9999")).
  simpl. intuition discriminate.
Defined.
